(** * Oyez case scraper: a shallow embedding of [selenium_transcript.py]

    The script drives a browser through three pages of oyez.org (the
    year listing, the case detail page, the oral-argument player) and
    assembles a JSON document.  The browser is the environment: what each
    selector lookup answers is given by a [world] record, and the two
    procedures [get_case_metadata] and [get_transcript_with_selenium] are
    embedded as programs of a small state-and-exception monad that
    threads the Python locals and a chronological log of the driver calls
    and file writes.

    Conventions of the model:
    - Python [str] is modelled by [string] (ASCII text);
    - an environment answer of type [option A] is [None] when the lookup
      raises (no such element, stale element, navigation error);
    - a Python [Optional[str]] value (the result of [get_attribute], of
      the speaker script) is an [attr], [None] being Python's [None];
    - [print], [time.sleep] and the [wait.until] of line 260, whose result
      is discarded, have no effect on any result and are left out; the DOM
      of one page answers a repeated lookup the same way;
    - the log records the creation and the release of the session, page
      loads, selector lookups, the two scripts run on a block, and the
      write of the output file; whether [open] accepts a file name is an
      answer of the environment too. *)

From stdpp Require Import base option list gmap strings.
From Stdlib Require Import Ascii Arith Lia.

Local Open Scope string_scope.
Local Open Scope list_scope.

(** ** Python string operations *)

Module PyStr.

(** Characters that [str.isspace] accepts in the ASCII range. *)
Definition is_space (c : ascii) : bool :=
  let n := nat_of_ascii c in
  (((9 <=? n) && (n <=? 13)) || ((28 <=? n) && (n <=? 32)))%nat.

Fixpoint lstrip (s : string) : string :=
  match s with
  | EmptyString => EmptyString
  | String c r => if is_space c then lstrip r else s
  end.

Fixpoint rstrip (s : string) : string :=
  match s with
  | EmptyString => EmptyString
  | String c r =>
      match rstrip r with
      | EmptyString => if is_space c then EmptyString else String c EmptyString
      | r' => String c r'
      end
  end.

(** [s.strip()] *)
Definition strip (s : string) : string := rstrip (lstrip s).

Definition lower_char (c : ascii) : ascii :=
  let n := nat_of_ascii c in
  if ((65 <=? n) && (n <=? 90))%nat then ascii_of_nat (n + 32) else c.

(** [s.lower()] *)
Fixpoint lower (s : string) : string :=
  match s with
  | EmptyString => EmptyString
  | String c r => String (lower_char c) (lower r)
  end.

(** [s.split()]: the maximal runs of non-whitespace characters. *)
Fixpoint split (s : string) : list string :=
  match s with
  | EmptyString => []
  | String c r =>
      if is_space c then split r
      else match r with
           | EmptyString => [String c EmptyString]
           | String d _ =>
               if is_space d then String c EmptyString :: split r
               else match split r with
                    | t :: ts => String c t :: ts
                    | [] => [String c EmptyString]
                    end
           end
  end.

Fixpoint startswith (p s : string) : bool :=
  match p, s with
  | EmptyString, _ => true
  | String a p', String b s' => if Ascii.eqb a b then startswith p' s' else false
  | String _ _, EmptyString => false
  end.

(** [sub in s] *)
Fixpoint contains (sub s : string) : bool :=
  startswith sub s ||
  match s with
  | EmptyString => false
  | String _ r => contains sub r
  end.

(** [s.replace(old, new)] for a non-empty [old]: non-overlapping
    occurrences, leftmost first.  [skip] counts the characters of a
    match that are still to be dropped. *)
Fixpoint replace_go (old new : string) (skip : nat) (s : string) : string :=
  match s with
  | EmptyString => EmptyString
  | String c r =>
      match skip with
      | S k => replace_go old new k r
      | O => if startswith old s
             then String.append new (replace_go old new (String.length old - 1) r)
             else String c (replace_go old new 0 r)
      end
  end.

Fixpoint intersperse (new : string) (s : string) : string :=
  match s with
  | EmptyString => EmptyString
  | String c r => String c (String.append new (intersperse new r))
  end.

Definition replace (old new s : string) : string :=
  match old with
  | EmptyString => String.append new (intersperse new s)
  | _ => replace_go old new 0 s
  end.

(** [sep.join(l)] *)
Fixpoint join (sep : string) (l : list string) : string :=
  match l with
  | [] => EmptyString
  | [x] => x
  | x :: r => String.append x (String.append sep (join sep r))
  end.

(** Truth value of a string: non-empty. *)
Definition truthy (s : string) : bool :=
  match s with EmptyString => false | _ => true end.

End PyStr.

(** ** Values, entries and the output document *)

(** One advocate of the [advocates] list: the dict [{'name', 'role'}]. *)
Record advocate := { name : string; role : string }.

(** What a metadata key can hold. *)
Inductive value :=
| VNone
| VStr (s : string)
| VList (l : list advocate).

(** A Python [Optional[str]]. *)
Definition attr := option string.

Definition value_of_attr (a : attr) : value :=
  match a with Some s => VStr s | None => VNone end.

Definition value_truthy (v : value) : bool :=
  match v with
  | VNone => false
  | VStr s => PyStr.truthy s
  | VList l => match l with [] => false | _ => true end
  end.

(** A transcript entry: the dict appended at lines 328-334. *)
Record entry := {
  speaker : string;
  text : string;
  start_time : attr;
  stop_time : attr
}.

(** The document handed to [json.dump]. *)
Record scrape_result := {
  doc_case_name : value;
  doc_argument_date : value;
  doc_metadata : gmap string value;
  doc_transcript : list entry;
  doc_transcript_mode : string
}.

(** ** Exceptions and the log of effects *)

Inductive exn :=
| NotFound (fragment : string)   (* line 63 *)
| NoBlocks                       (* line 278 *)
| WebDriverException (what : string)
| AttributeError (attribute : string)
| UnboundLocalError (variable : string)
| KeyError (key : string)
| OSError (filename : string)    (* open(filename, 'w') *)
| SessionNotCreated.

Inductive event :=
| Open                                        (* webdriver.Chrome(...) returned *)
| Get (url : value)                           (* driver.get(url) *)
| Find (selector : string)                    (* find_element(s) *)
| Click (i : nat)                             (* the click script on block i *)
| FindSpeaker (i : nat)                       (* the findSpeaker script on block i *)
| Dump (filename : string) (doc : scrape_result)   (* json.dump into the opened file *)
| Quit.                                       (* driver.quit() *)

Inductive res (A : Type) :=
| Ok (a : A)
| Raised (e : exn).
Arguments Ok {A} a.
Arguments Raised {A} e.

(** ** The monad: locals [S], a log, and exceptions *)

Definition M (S A : Type) : Type := S -> list event -> res A * S * list event.

Section Monad.
Context {S : Type}.

Definition ret {A} (a : A) : M S A := fun s t => (Ok a, s, t).

Definition bind {A B} (m : M S A) (k : A -> M S B) : M S B :=
  fun s t =>
    match m s t with
    | (Ok a, s', t') => k a s' t'
    | (Raised e, s', t') => (Raised e, s', t')
    end.

Definition raise {A} (e : exn) : M S A := fun s t => (Raised e, s, t).

(** [try: body / except Exception as e: handler e] *)
Definition try_ {A} (body : M S A) (handler : exn -> M S A) : M S A :=
  fun s t =>
    match body s t with
    | (Ok a, s', t') => (Ok a, s', t')
    | (Raised e, s', t') => handler e s' t'
    end.

Definition emit (e : event) : M S unit := fun s t => (Ok tt, s, t ++ [e]).

Definition gets {A} (f : S -> A) : M S A := fun s t => (Ok (f s), s, t).

Definition modify (f : S -> S) : M S unit := fun s t => (Ok tt, f s, t).

(** An answer of the environment: returned, or raised when absent. *)
Definition answer {A} (what : string) (a : option A) : M S A :=
  match a with
  | Some x => ret x
  | None => raise (WebDriverException what)
  end.

(** [find_element(By..., sel)] *)
Definition find_element {A} (sel : string) (a : option A) : M S A :=
  bind (emit (Find sel)) (fun _ => answer sel a).

(** [find_elements(By..., sel)]: never raises, may be empty. *)
Definition find_elements {A} (sel : string) (l : list A) : M S (list A) :=
  bind (emit (Find sel)) (fun _ => ret l).

End Monad.

Notation "x <- m ;; k" := (bind m (fun x => k))
  (at level 100, m at next level, right associativity).
Notation "m ;;; k" := (bind m (fun _ => k))
  (at level 100, right associativity).

(** [for x in xs: body x], left to right, leaving at the first raise. *)
Fixpoint for_ {S A} (xs : list A) (body : A -> M S unit) : M S unit :=
  match xs with
  | [] => ret tt
  | x :: r => body x ;;; for_ r body
  end.

(** [[f x for x in xs]] for an [f] that may raise. *)
Fixpoint map_ {S A B} (f : A -> M S B) (xs : list A) : M S (list B) :=
  match xs with
  | [] => ret []
  | x :: r => y <- f x ;; ys <- map_ f r ;; ret (y :: ys)
  end.

(** ** The environment: what the pages answer *)

(** One [li] of the year listing.  [ci_title] is the text of its [h2 a]
    link, [ci_href] that link's [href], [ci_description] the text of its
    [.description] child. *)
Record case_item := {
  ci_title : option string;
  ci_href : attr;
  ci_description : option string
}.

(** One [.advocate] element of the advocates section. *)
Record advocate_item := {
  adv_name : option string;
  adv_role : option string
}.

(** One [div.subcell.ng-binding.ng-scope] of the timeline: the text of its
    [h3] and of its [div.ng-binding.ng-scope]. *)
Record timeline_item := {
  ti_header : option string;
  ti_date : option string
}.

Record timeline_section := {
  tl_citation : option string;
  tl_items : list timeline_item
}.

(** The case detail page, one field per lookup of lines 83-198.
    [dp_parties] tells whether the [div.row:first-child] container is
    found, [dp_docket_no] whether the XPath of line 93 finds anything; the
    text fields are the [.text] of the element looked up, the paragraph
    fields the texts of the paragraphs of a section that is found, the two
    oral-argument fields the [iframe-url] attribute of the link found. *)
Record detail_page := {
  dp_parties : bool;
  dp_petitioner : option string;
  dp_respondent : option string;
  dp_docket_no : bool;
  dp_decided_by : option string;
  dp_lower_court : option string;
  dp_advocates : option (list advocate_item);
  dp_facts : option (list string);
  dp_question : option (list string);
  dp_conclusion : option (list string);
  dp_oral_primary : option attr;
  dp_oral_looser : option attr;
  dp_timeline : option timeline_section
}.

(** One transcript block [p.ng-binding.ng-scope.ng-isolate-scope], as it
    answers once the loop reaches it: whether the click script runs, its
    text after the click, its two timing attributes, what the
    [findSpeaker] script returns for it, and the texts of the page's
    [h4.ng-binding] labels at that moment ([None] when that lookup raises;
    a label's text is [None] when reading it raises). *)
Record block := {
  b_click : bool;
  b_text : option string;
  b_start : option attr;
  b_stop : option attr;
  b_label : option attr;
  b_page_labels : option (list (option string))
}.

(** The player page: the blocks found by the n-th poll of lines 268-275. *)
Record player_page := {
  pp_polls : nat -> list block
}.

Record world := {
  session : bool;                                   (* webdriver.Chrome(...) succeeds *)
  listing : string -> option (list case_item);      (* by listing URL *)
  detail : attr -> option detail_page;              (* by case URL *)
  player : string -> option player_page;            (* by oral-argument URL *)
  writable : string -> bool                         (* open(filename, 'w') succeeds *)
}.

(** ** [get_case_metadata] (lines 9-212)

    Selectors are quoted as in the source, with the double quotes of the
    CSS attribute selectors written as single quotes. *)

Record md_locals := {
  metadata : gmap string value;
  header : option string          (* [None]: the local is unbound *)
}.

Definition md_init : md_locals := {| metadata := ∅; header := None |}.

(** [metadata[k] = v] *)
Definition set_item (k : string) (v : value) : M md_locals unit :=
  modify (fun s => {| metadata := <[k:=v]> (metadata s); header := header s |}).

(** [header = h] *)
Definition set_header (h : string) : M md_locals unit :=
  modify (fun s => {| metadata := metadata s; header := Some h |}).

(** Reading the local [header]. *)
Definition get_header : M md_locals string :=
  h <- gets header ;;
  match h with
  | Some x => ret x
  | None => raise (UnboundLocalError "header")
  end.

(** [driver.get(url)] followed by the page's answer. *)
Definition driver_get {S A} (url : value) (page : option A) : M S A :=
  emit (Get url) ;;; answer "get" page.

(** Line 55: [any(word.lower() in title.lower() for word in case_name.split())] *)
Definition title_matches (case_name title : string) : bool :=
  existsb (fun word => PyStr.contains (PyStr.lower word) (PyStr.lower title))
          (PyStr.split case_name).

(** Lines 42-47: the titles are read once for the console. *)
Definition print_titles {S} (case_items : list case_item) : M S unit :=
  for_ case_items (fun case =>
    try_ (_ <- find_element "h2 a" (ci_title case) ;; ret tt)
         (fun _ => ret tt)).

(** Lines 50-60: the first entry whose title matches; an entry whose
    title cannot be read is passed over. *)
Fixpoint find_target {S} (case_name : string) (case_items : list case_item)
  : M S (option case_item) :=
  match case_items with
  | [] => ret None
  | case :: rest =>
      hit <- try_ (title <- find_element "h2 a" (ci_title case) ;;
                   ret (title_matches case_name (PyStr.strip title)))
                  (fun _ => ret false) ;;
      if hit then ret (Some case) else find_target case_name rest
  end.

(** Lines 84-89 *)
Definition get_parties (dp : detail_page) : M md_locals unit :=
  try_ (_ <- find_element "div.row:first-child"
              (if dp_parties dp then Some tt else None) ;;
        p <- find_element ".//div[h3[text()='Petitioner']]" (dp_petitioner dp) ;;
        set_item "petitioner" (VStr (PyStr.strip (PyStr.replace "Petitioner" EmptyString p))) ;;;
        r <- find_element ".//div[h3[text()='Respondent']]" (dp_respondent dp) ;;
        set_item "respondent" (VStr (PyStr.strip (PyStr.replace "Respondent" EmptyString r))))
       (fun _ => ret tt).

(** [.strip()] applied to a [WebElement], which has no such attribute. *)
Definition webelement_strip {S} (_ : unit) : M S string :=
  raise (AttributeError "strip").

(** Lines 92-97.  Line 93 calls [.strip()] on what [find_element]
    returns, so the block leaves through its handler at that line. *)
Definition get_case_details (dp : detail_page) : M md_locals unit :=
  try_ (e <- find_element "//div[h3[text()='Docket no.']]/text()"
              (if dp_docket_no dp then Some tt else None) ;;
        d <- webelement_strip e ;;
        set_item "docket_no" (VStr d) ;;;
        c <- find_element "//div[h3[text()='Decided by']]//a" (dp_decided_by dp) ;;
        set_item "decided_by" (VStr (PyStr.strip c)) ;;;
        l <- find_element "//div[h3[text()='Lower court']]" (dp_lower_court dp) ;;
        set_item "lower_court" (VStr (PyStr.strip (PyStr.replace "Lower court" EmptyString l))))
       (fun _ => ret tt).

(** Lines 103-109: one advocate. *)
Definition read_advocate {S} (a : advocate_item) : M S advocate :=
  n <- find_element "a" (adv_name a) ;;
  r <- find_element ".description" (adv_role a) ;;
  ret {| name := PyStr.strip n; role := PyStr.strip r |}.

(** Lines 100-112 *)
Definition get_advocates (dp : detail_page) : M md_locals unit :=
  try_ (section <- find_element "div.subcell[ng-if='case.advocates']" (dp_advocates dp) ;;
        items <- find_elements ".advocate" section ;;
        advocates <- map_ read_advocate items ;;
        set_item "advocates" (VList advocates))
       (fun _ => ret tt).

(** The three abstract sections (lines 115-136) share one shape. *)
Definition get_paragraphs (key section_sel p_sel : string) (ps : option (list string))
  : M md_locals unit :=
  try_ (section <- find_element section_sel ps ;;
        paragraphs <- find_elements p_sel section ;;
        set_item key (VStr (PyStr.join (String "010" (String "010" EmptyString))
                                       (map PyStr.strip paragraphs))))
       (fun _ => ret tt).

Definition get_facts (dp : detail_page) : M md_locals unit :=
  get_paragraphs "facts" "section.abstract[ng-if='case.facts_of_the_case']"
                 "div.ng-binding p" (dp_facts dp).

Definition get_question (dp : detail_page) : M md_locals unit :=
  get_paragraphs "question" "section.abstract[ng-if='case.question']"
                 "div.ng-binding p" (dp_question dp).

Definition get_conclusion (dp : detail_page) : M md_locals unit :=
  get_paragraphs "conclusion" "section.abstract div[ng-if='case.conclusion']"
                 "p" (dp_conclusion dp).

Definition oral_primary_selector : string :=
  "a[data-gtm-category='Audios'][data-gtm-type='click'][iframe-url*='oral_argument_audio']".

Definition oral_looser_selector : string :=
  "a[iframe-url*='oral_argument_audio']".

(** Lines 139-163 *)
Definition get_oral_argument_url (dp : detail_page) : M md_locals unit :=
  try_ (iframe_url <- find_element oral_primary_selector (dp_oral_primary dp) ;;
        set_item "oral_argument_url" (value_of_attr iframe_url))
       (fun _ =>
          try_ (iframe_url <- find_element oral_looser_selector (dp_oral_looser dp) ;;
                set_item "oral_argument_url" (value_of_attr iframe_url))
               (fun _ => set_item "oral_argument_url" VNone)).

(** Lines 170-178 *)
Definition get_citation (tl : timeline_section) : M md_locals unit :=
  try_ (c <- find_element "div.subcell[ng-if='case.citation'] span.ng-binding"
              (tl_citation tl) ;;
        set_item "citation" (VStr (PyStr.strip c)))
       (fun _ => set_item "citation" VNone).

(** Lines 187-195: one timeline item.  The handler reads the local
    [header], which holds whatever the last successful line 189 left. *)
Definition timeline_date (item : timeline_item) : M md_locals unit :=
  try_ (h <- find_element "h3" (ti_header item) ;;
        set_header (PyStr.lower (PyStr.strip h)) ;;;
        d <- find_element "div.ng-binding.ng-scope" (ti_date item) ;;
        k <- get_header ;;
        set_item k (VStr (PyStr.strip d)))
       (fun _ => k <- get_header ;; set_item k VNone).

(** Lines 166-198 *)
Definition get_timeline (dp : detail_page) : M md_locals unit :=
  try_ (timeline_section <- find_element "div.cell:has(div.subcell)" (dp_timeline dp) ;;
        get_citation timeline_section ;;;
        timeline_items <- find_elements "div.subcell.ng-binding.ng-scope"
                                        (tl_items timeline_section) ;;
        for_ timeline_items timeline_date)
       (fun _ => ret tt).

(** Lines 83-198: the groups read from the detail page, in order. *)
Definition get_details (dp : detail_page) : M md_locals unit :=
  get_parties dp ;;;
  get_case_details dp ;;;
  get_advocates dp ;;;
  get_facts dp ;;;
  get_question dp ;;;
  get_conclusion dp ;;;
  get_oral_argument_url dp ;;;
  get_timeline dp.

(** Lines 67-201 *)
Definition get_specific_metadata (w : world) (target_case : case_item)
  : M md_locals unit :=
  try_ (title <- find_element "h2 a" (ci_title target_case) ;;
        set_item "title" (VStr (PyStr.strip title)) ;;;
        let case_url := ci_href target_case in
        set_item "url" (value_of_attr case_url) ;;;
        description <- find_element ".description" (ci_description target_case) ;;
        set_item "description" (VStr (PyStr.strip description)) ;;;
        dp <- driver_get (value_of_attr case_url) (detail w case_url) ;;
        get_details dp)
       (fun _ => ret tt).

Definition listing_url (case_year : string) : string :=
  String.append "https://www.oyez.org/cases/" case_year.

(** Lines 65-212, once the target is chosen. *)
Definition extract_target (w : world) (target_case : case_item)
  : M md_locals (gmap string value) :=
  modify (fun s => {| metadata := ∅; header := header s |}) ;;;
  get_specific_metadata w target_case ;;;
  gets metadata.

Definition get_case_metadata (w : world) (case_year case_name : string)
  : M md_locals (gmap string value) :=
  page <- driver_get (VStr (listing_url case_year)) (listing w (listing_url case_year)) ;;
  case_items <- find_elements "li[ng-repeat*='case in pager.content']" page ;;
  print_titles case_items ;;;
  target_case <- find_target case_name case_items ;;
  match target_case with
  | None => raise (NotFound case_name)
  | Some target => extract_target w target
  end.

(** ** [get_transcript_with_selenium] (lines 214-364) *)

Record tr_locals := {
  transcript : list entry;
  current_speaker : option string      (* [None]: Python's [None] *)
}.

Definition tr_init : tr_locals := {| transcript := []; current_speaker := None |}.

(** Truth value of [current_speaker]. *)
Definition speaker_truthy (cs : option string) : bool :=
  match cs with Some s => PyStr.truthy s | None => false end.

Definition set_speaker (s : string) : M tr_locals unit :=
  modify (fun l => {| transcript := transcript l; current_speaker := Some s |}).

(** [transcript.append(e)] *)
Definition append_entry (e : entry) : M tr_locals unit :=
  modify (fun l => {| transcript := transcript l ++ [e];
                      current_speaker := current_speaker l |}).

(** A call: the callee runs on locals of its own and shares the log. *)
Definition call {S S' A} (init : S') (m : M S' A) : M S A :=
  fun s t => match m init t with (r, _, t') => (r, s, t') end.

(** [try: body / finally: cleanup] *)
Definition finally_ {S A} (body : M S A) (cleanup : M S unit) : M S A :=
  fun s t =>
    match body s t with
    | (r, s', t') =>
        match cleanup s' t' with
        | (Ok _, s'', t'') => (r, s'', t'')
        | (Raised e, s'', t'') => (Raised e, s'', t'')
        end
    end.

(** [enumerate(xs)], counting from [i]. *)
Fixpoint enumerate_from {A} (i : nat) (xs : list A) : list (nat * A) :=
  match xs with
  | [] => []
  | x :: r => (i, x) :: enumerate_from (S i) r
  end.

Definition enumerate {A} (xs : list A) : list (nat * A) := enumerate_from 0 xs.

Definition block_selector : string := "p.ng-binding.ng-scope.ng-isolate-scope".

(** Lines 268-275: [attempts] is what is left of [range(max_retries)],
    [blocks] the value of the local so far. *)
Fixpoint poll_blocks {S} (pp : player_page) (attempts : list nat) (blocks : list block)
  : M S (list block) :=
  match attempts with
  | [] => ret blocks
  | attempt :: rest =>
      found <- find_elements block_selector (pp_polls pp attempt) ;;
      match found with
      | [] => poll_blocks pp rest found
      | _ => ret found
      end
  end.

(** Lines 321-325: the page-wide fallback, entered when the block has no
    label and no speaker is established. *)
Definition fallback_speaker (b : block) : M tr_locals unit :=
  page <- find_element "h4.ng-binding" (b_page_labels b) ;;
  match page with
  | [] => ret tt
  | first :: _ =>
      t <- answer "text" first ;;
      set_speaker (PyStr.strip t)
  end.

(** Lines 321-325: the [elif] branch. *)
Definition carry_or_fallback (b : block) : M tr_locals unit :=
  cs <- gets current_speaker ;;
  if negb (speaker_truthy cs) then fallback_speaker b else ret tt.

(** Lines 319-325 *)
Definition resolve_speaker (speaker : attr) (b : block) : M tr_locals unit :=
  match speaker with
  | Some s => if PyStr.truthy s then set_speaker (PyStr.strip s)
              else carry_or_fallback b
  | None => carry_or_fallback b
  end.

(** Lines 294-334: the body of the per-block [try]. *)
Definition block_body (i : nat) (b : block) : M tr_locals unit :=
  emit (Click i) ;;;
  answer "click" (if b_click b then Some tt else None) ;;;
  raw <- answer "text" (b_text b) ;;
  let text := PyStr.strip raw in
  start_time <- answer "start-time" (b_start b) ;;
  stop_time <- answer "stop-time" (b_stop b) ;;
  emit (FindSpeaker i) ;;;
  speaker <- answer "findSpeaker" (b_label b) ;;
  resolve_speaker speaker b ;;;
  cs <- gets current_speaker ;;
  match cs with
  | Some s =>
      if PyStr.truthy text && PyStr.truthy s
      then append_entry {| speaker := s; text := text;
                           start_time := start_time; stop_time := stop_time |}
      else ret tt
  | None => ret tt
  end.

(** Lines 292-340: one iteration, with its handler. *)
Definition process_block (ib : nat * block) : M tr_locals unit :=
  try_ (block_body (fst ib) (snd ib)) (fun _ => ret tt).

(** Line 285 / 287 *)
Definition limit_blocks (full_transcript : bool) (blocks : list block) : list block :=
  if full_transcript then blocks else take 3 blocks.

(** [str.replace] on a metadata value: only a [str] has the method. *)
Definition value_replace {S} (v : value) (old new : string) : M S value :=
  match v with
  | VStr s => ret (VStr (PyStr.replace old new s))
  | _ => raise (AttributeError "replace")
  end.

(** [metadata[k]] *)
Definition getitem {S} (m : gmap string value) (k : string) : M S value :=
  match m !! k with
  | Some v => ret v
  | None => raise (KeyError k)
  end.

(** [metadata.get(k)] *)
Definition dict_get (m : gmap string value) (k : string) : value :=
  default VNone (m !! k).

Definition player_of (w : world) (url : value) : option player_page :=
  match url with
  | VStr u => player w u
  | _ => None
  end.

(** Lines 342-359: build the document and write it.  [open] raises when
    the working directory cannot take a file of that name; once the file
    is open the document, made of strings, [None], lists and dicts, is
    dumped into it. *)
Definition save_result (w : world) (metadata : gmap string value) (full_transcript : bool)
  : M tr_locals unit :=
  transcript <- gets transcript ;;
  title <- getitem metadata "title" ;;
  let result := {| doc_case_name := title;
                   doc_argument_date := dict_get metadata "argued";
                   doc_metadata := metadata;
                   doc_transcript := transcript;
                   doc_transcript_mode :=
                     if negb full_transcript then "TEST (first 3 blocks)" else "FULL" |} in
  t <- getitem metadata "title" ;;
  t <- value_replace t " " "_" ;;
  t <- value_replace t "," EmptyString ;;
  t <- value_replace t "." EmptyString ;;
  safe_case_name <- value_replace t "v" "v" ;;
  let mode_suffix := if negb full_transcript then "_test" else "_full" in
  match safe_case_name with
  | VStr n =>
      let filename := String.append n (String.append "_transcript"
                        (String.append mode_suffix ".json")) in
      if writable w filename then emit (Dump filename result)
      else raise (OSError filename)
  | _ => raise (AttributeError "replace")
  end.

(** Lines 244-359: the body of the outer [try]. *)
Definition scrape (w : world) (case_year case_name : string) (full_transcript : bool)
  : M tr_locals unit :=
  metadata <- call md_init (get_case_metadata w case_year case_name) ;;
  let oral_argument_url := dict_get metadata "oral_argument_url" in
  if negb (value_truthy oral_argument_url) then ret tt
  else
    pp <- driver_get oral_argument_url (player_of w oral_argument_url) ;;
    blocks <- poll_blocks pp [0; 1; 2] [] ;;
    match blocks with
    | [] => raise NoBlocks
    | _ =>
        let blocks := limit_blocks full_transcript blocks in
        modify (fun _ => tr_init) ;;;
        for_ (enumerate blocks) process_block ;;;
        save_result w metadata full_transcript
    end.

(** Lines 240-364.  The session is created before the [try]; when that
    fails the exception leaves the function. *)
Definition get_transcript_with_selenium
    (w : world) (case_year case_name : string) (full_transcript : bool)
  : res unit * list event :=
  if session w then
    match finally_ (try_ (scrape w case_year case_name full_transcript)
                         (fun _ => ret tt))
                   (emit Quit) tr_init [Open] with
    | (r, _, t) => (r, t)
    end
  else (Raised SessionNotCreated, []).

(** ** Notions used in the statements *)

(** Some character of the string is whitespace. *)
Fixpoint has_space (s : string) : bool :=
  match s with
  | EmptyString => false
  | String c r => PyStr.is_space c || has_space r
  end.

(** A listing entry whose title can be read and matches the fragment. *)
Definition entry_matches (case_name : string) (c : case_item) : bool :=
  match ci_title c with
  | Some t => title_matches case_name (PyStr.strip t)
  | None => false
  end.

(** Log discipline: whatever the program appends to the log satisfies [P]. *)
Definition emits_only {S A} (P : event -> bool) (m : M S A) : Prop :=
  forall s t, exists d, snd (m s t) = t ++ d /\ Forall (fun e => P e = true) d.

(** Page loads and selector lookups. *)
Definition is_query (e : event) : bool :=
  match e with Get _ | Find _ => true | _ => false end.

Definition is_dump (e : event) : bool :=
  match e with Dump _ _ => true | _ => false end.

Definition is_quit (e : event) : bool :=
  match e with Quit => true | _ => false end.

Definition is_open (e : event) : bool :=
  match e with Open => true | _ => false end.

(** Everything but a file write and a session release. *)
Definition is_browsing (e : event) : bool := negb (is_dump e) && negb (is_quit e).

(** What may happen between the creation of the session and its release. *)
Definition in_session (e : event) : bool := negb (is_open e) && negb (is_quit e).

(** A log writes no output file. *)
Definition no_output (t : list event) : Prop := Forall (fun e => is_dump e = false) t.

(** The locals after one iteration of the loop on block [b]. *)
Definition step (b : block) (s : tr_locals) : tr_locals :=
  snd (fst (process_block (0, b) s [])).

(** The locals after the loop of lines 292-340 over [blocks], the first
    of them numbered [i]. *)
Definition run_blocks (i : nat) (blocks : list block) (s : tr_locals) : tr_locals :=
  snd (fst (for_ (enumerate_from i blocks) process_block s [])).

(** The transcript assembled from the blocks found on the page. *)
Definition transcript_of (full_transcript : bool) (blocks : list block) : list entry :=
  transcript (run_blocks 0 (limit_blocks full_transcript blocks) tr_init).

(** What an iteration reads from its block before it resolves the
    speaker (lines 295-317): stripped text, the two timing attributes and
    the label; [None] when one of these reads raises. *)
Definition block_reads (b : block) : option (string * attr * attr * attr) :=
  if b_click b then
    match b_text b, b_start b, b_stop b, b_label b with
    | Some raw, Some start, Some stop, Some label =>
        Some (PyStr.strip raw, start, stop, label)
    | _, _, _, _ => None
    end
  else None.

(** The block's own turn container has a non-empty label. *)
Definition declares_label (b : block) : bool :=
  match b_label b with
  | Some (Some l) => PyStr.truthy l
  | _ => false
  end.

(** The locals after the blocks of a list, one [step] after the other. *)
Definition steps (blocks : list block) (s : tr_locals) : tr_locals :=
  foldl (fun s b => step b s) s blocks.

(** The speaker a block is attributed to, read off the block and the
    speaker carried into it: its own label, stripped, when the label is
    there and not empty; otherwise the carried speaker when that one is not
    empty; otherwise the first label of the page, stripped.  [None] when
    none of them is available. *)
Definition resolved_speaker (b : block) (carried : option string) : option string :=
  match b_label b with
  | Some (Some l) =>
      if PyStr.truthy l then Some (PyStr.strip l)
      else if speaker_truthy carried then carried
      else match b_page_labels b with
           | Some (Some first :: _) => Some (PyStr.strip first)
           | _ => None
           end
  | Some None =>
      if speaker_truthy carried then carried
      else match b_page_labels b with
           | Some (Some first :: _) => Some (PyStr.strip first)
           | _ => None
           end
  | None => None
  end.

(** What block [b] is to add to the transcript when the loop reaches it
    with locals [s]: one entry, with the block's stripped text and timings,
    when its reads succeed, that text is not empty and the speaker resolved
    for it is not empty; nothing otherwise. *)
Definition emitted_by (b : block) (s : tr_locals) : list entry :=
  match block_reads b with
  | Some (words, start, stop, _) =>
      match resolved_speaker b (current_speaker s) with
      | Some sp =>
          if PyStr.truthy words && PyStr.truthy sp
          then [{| speaker := sp; text := words; start_time := start; stop_time := stop |}]
          else []
      | None => []
      end
  | None => []
  end.

(** The per-block state machine of the loop. *)
Inductive outcome := APPENDED | SKIPPED | FAILED.

Definition outcome_of (i : nat) (b : block) (s : tr_locals) : outcome :=
  match block_body i b s [] with
  | (Raised _, _, _) => FAILED
  | (Ok _, s', _) =>
      if Nat.eqb (length (transcript s')) (length (transcript s)) then SKIPPED
      else APPENDED
  end.

(** An entry carries the text and timings of a block. *)
Definition entry_of_block (e : entry) (b : block) : Prop :=
  exists raw, b_text b = Some raw /\ text e = PyStr.strip raw /\
              b_start b = Some (start_time e) /\ b_stop b = Some (stop_time e).

(** What the advocates section yields when every advocate can be read. *)
Definition read_advocates (items : list advocate_item) : option (list advocate) :=
  mapM (fun a => match adv_name a, adv_role a with
                 | Some n, Some r => Some {| name := PyStr.strip n; role := PyStr.strip r |}
                 | _, _ => None
                 end) items.

Definition paragraphs_value (ps : list string) : value :=
  VStr (PyStr.join (String "010" (String "010" EmptyString)) (map PyStr.strip ps)).

(** The value of the oral-argument field after the two-tier lookup. *)
Definition oral_value (dp : detail_page) : value :=
  match dp_oral_primary dp with
  | Some a => value_of_attr a
  | None => match dp_oral_looser dp with
            | Some a => value_of_attr a
            | None => VNone
            end
  end.

(** What the lookups of a key's own [try] group give on the detail page:
    [None] when the key is left out of the mapping. *)
Definition group_value (dp : detail_page) (k : string) : option value :=
  if decide (k = "petitioner") then
    if dp_parties dp
    then (fun p => VStr (PyStr.strip (PyStr.replace "Petitioner" EmptyString p))) <$> dp_petitioner dp
    else None
  else if decide (k = "respondent") then
    if dp_parties dp
    then match dp_petitioner dp with
         | Some _ => (fun r => VStr (PyStr.strip (PyStr.replace "Respondent" EmptyString r)))
                       <$> dp_respondent dp
         | None => None
         end
    else None
  else if decide (k = "advocates") then
    VList <$> (dp_advocates dp ≫= read_advocates)
  else if decide (k = "facts") then paragraphs_value <$> dp_facts dp
  else if decide (k = "question") then paragraphs_value <$> dp_question dp
  else if decide (k = "conclusion") then paragraphs_value <$> dp_conclusion dp
  else if decide (k = "oral_argument_url") then Some (oral_value dp)
  else None.

Definition group_keys : list string :=
  ["petitioner"; "respondent"; "advocates"; "facts"; "question"; "conclusion";
   "oral_argument_url"].

(** [metadata[k] = v] when the group's lookups gave [v], no change when
    they failed. *)
Definition set_opt (k : string) (o : option value) (m : gmap string value)
  : gmap string value :=
  match o with
  | Some v => <[k:=v]> m
  | None => m
  end.

(** The mapping after the groups of lines 83-163 ran on [m]. *)
Definition details_update (dp : detail_page) (m : gmap string value)
  : gmap string value :=
  <["oral_argument_url" := oral_value dp]>
    (set_opt "conclusion" (group_value dp "conclusion")
      (set_opt "question" (group_value dp "question")
        (set_opt "facts" (group_value dp "facts")
          (set_opt "advocates" (group_value dp "advocates")
            (set_opt "respondent" (group_value dp "respondent")
              (set_opt "petitioner" (group_value dp "petitioner") m)))))).

(** The keys the timeline pass can write: [citation] and the headers it
    manages to read. *)
Definition item_key (item : timeline_item) : option string :=
  (fun h => PyStr.lower (PyStr.strip h)) <$> ti_header item.

Definition timeline_keys (dp : detail_page) : list string :=
  match dp_timeline dp with
  | Some tl => "citation" :: omap item_key (tl_items tl)
  | None => []
  end.

(** ** Sample pages *)

Module Sample.

Definition moore : case_item :=
  {| ci_title := Some "Moore v. United States";
     ci_href := Some "https://www.oyez.org/cases/2023/22-800";
     ci_description := Some "A case about the Sixteenth Amendment." |}.

Definition acheson : case_item :=
  {| ci_title := Some " Acheson Hotels, LLC v. Laufer ";
     ci_href := Some "https://www.oyez.org/cases/2023/22-429";
     ci_description := Some "A case about standing." |}.

(** The same entry without a [.description] child. *)
Definition acheson_bare : case_item :=
  {| ci_title := ci_title acheson; ci_href := ci_href acheson; ci_description := None |}.

Definition granted : timeline_item :=
  {| ti_header := Some "Granted"; ti_date := Some "Mar 27, 2023" |}.

(** The header is there, the date element is not. *)
Definition argued_undated : timeline_item :=
  {| ti_header := Some "Argued"; ti_date := None |}.

(** No [h3] at all. *)
Definition headless : timeline_item :=
  {| ti_header := None; ti_date := Some "Dec 5, 2023" |}.

Definition audio_url : string :=
  "https://apps.oyez.org/player/#/roberts-2023/oral_argument_audio/25538".

Definition details : detail_page :=
  {| dp_parties := true;
     dp_petitioner := Some "Petitioner Acheson Hotels, LLC";
     dp_respondent := Some "Respondent Deborah Laufer";
     dp_docket_no := true;
     dp_decided_by := Some "Roberts Court";
     dp_lower_court := Some "Lower court First Circuit";
     dp_advocates := Some [ {| adv_name := Some "Adam G. Unikowsky";
                               adv_role := Some "for the Petitioner" |} ];
     dp_facts := Some ["Laufer sued."; "The hotel moved to dismiss."];
     dp_question := Some ["Does a tester have standing?"];
     dp_conclusion := None;
     dp_oral_primary := None;
     dp_oral_looser := Some (Some audio_url);
     dp_timeline := Some {| tl_citation := Some "601 US _ (2023)";
                            tl_items := [granted; argued_undated] |} |}.

(** The same page with no audio link. *)
Definition details_silent : detail_page :=
  {| dp_parties := dp_parties details;
     dp_petitioner := dp_petitioner details;
     dp_respondent := dp_respondent details;
     dp_docket_no := dp_docket_no details;
     dp_decided_by := dp_decided_by details;
     dp_lower_court := dp_lower_court details;
     dp_advocates := dp_advocates details;
     dp_facts := dp_facts details;
     dp_question := dp_question details;
     dp_conclusion := dp_conclusion details;
     dp_oral_primary := None;
     dp_oral_looser := None;
     dp_timeline := dp_timeline details |}.

(** The same page with no Petitioner cell; the Respondent cell is there. *)
Definition details_half_parties : detail_page :=
  {| dp_parties := dp_parties details;
     dp_petitioner := None;
     dp_respondent := dp_respondent details;
     dp_docket_no := dp_docket_no details;
     dp_decided_by := dp_decided_by details;
     dp_lower_court := dp_lower_court details;
     dp_advocates := dp_advocates details;
     dp_facts := dp_facts details;
     dp_question := dp_question details;
     dp_conclusion := dp_conclusion details;
     dp_oral_primary := dp_oral_primary details;
     dp_oral_looser := dp_oral_looser details;
     dp_timeline := dp_timeline details |}.

(** A block that answers every read. *)
Definition said (label : attr) (words : string) : block :=
  {| b_click := true; b_text := Some words;
     b_start := Some (Some "0.0"); b_stop := Some (Some "4.2");
     b_label := Some label; b_page_labels := Some [Some "John G. Roberts, Jr."] |}.

(** A block whose [start-time] read raises. *)
Definition stale (label : attr) (words : string) : block :=
  {| b_click := true; b_text := Some words;
     b_start := None; b_stop := Some (Some "4.2");
     b_label := Some label; b_page_labels := Some [] |}.

(** Six blocks, a label on every third one. *)
Definition every_third : list block :=
  [ said (Some "John G. Roberts, Jr.") "We will hear argument."; said None "Mr. Unikowsky.";
    said None "You may proceed.";
    said (Some " Adam G. Unikowsky ") "Mr. Chief Justice,"; said None "and may it please";
    said None "the Court." ].

(** A labelled block in the middle renders no text. *)
Definition silent_turn : list block :=
  [ said (Some "John G. Roberts, Jr.") "Thank you, counsel.";
    said (Some "Elena Kagan") EmptyString;
    said None "I have a question." ].

(** The second block fails while it is read. *)
Definition broken : list block :=
  [ said (Some "John G. Roberts, Jr.") "Thank you, counsel.";
    stale (Some "Elena Kagan") "May I ask";
    said None "The case is submitted." ].

Definition site (items : list case_item) (dp : detail_page) (polls : nat -> list block)
  : world :=
  {| session := true;
     listing := fun url =>
       if String.eqb url "https://www.oyez.org/cases/2023" then Some items else None;
     detail := fun url =>
       match url with
       | Some u => if String.eqb u "https://www.oyez.org/cases/2023/22-429"
                   then Some dp else None
       | None => None
       end;
     player := fun url =>
       if String.eqb url audio_url then Some {| pp_polls := polls |} else None;
     writable := fun _ => true |}.

(** The blocks appear at the third poll. *)
Definition late (blocks : list block) (attempt : nat) : list block :=
  match attempt with
  | 2 => blocks
  | _ => []
  end.

Definition never (attempt : nat) : list block := [].

End Sample.

(** ** Notions used for the rest of the code *)

(** Character [c] occurs in the string. *)
Fixpoint occurs (c : ascii) (s : string) : bool :=
  match s with
  | EmptyString => false
  | String x r => Ascii.eqb c x || occurs c r
  end.

(** The string holds whitespace only. *)
Fixpoint all_space (s : string) : bool :=
  match s with
  | EmptyString => true
  | String c r => PyStr.is_space c && all_space r
  end.

(** Line 352: the title as it enters the file name. *)
Definition safe_case_name (title : string) : string :=
  PyStr.replace "v" "v"
    (PyStr.replace "." EmptyString
       (PyStr.replace "," EmptyString
          (PyStr.replace " " "_" title))).

(** Lines 353-354 *)
Definition output_filename (title : string) (full_transcript : bool) : string :=
  String.app (safe_case_name title)
    (String.app "_transcript"
       (String.app (if negb full_transcript then "_test" else "_full") ".json")).

(** The keys written before the detail page is opened (lines 70-76). *)
Definition leading_keys : list string := ["title"; "url"; "description"].

(** What line 192 or line 195 stores for a timeline item. *)
Definition date_value (item : timeline_item) : value :=
  match ti_date item with
  | Some d => VStr (PyStr.strip d)
  | None => VNone
  end.

(** What line 175 or line 178 stores for the citation. *)
Definition citation_value (tl : timeline_section) : value :=
  match tl_citation tl with
  | Some c => VStr (PyStr.strip c)
  | None => VNone
  end.

(** The mapping when the detail page is about to be opened (line 79). *)
Definition leading_mapping (title : string) (url : attr) (description : string)
  : gmap string value :=
  <["description" := VStr (PyStr.strip description)]>
    (<["url" := value_of_attr url]>
       (<["title" := VStr (PyStr.strip title)]> ∅)).

(** The dict built at lines 106-109 for an advocate element. *)
Definition advocate_of (a : advocate_item) (adv : advocate) : Prop :=
  exists n r, adv_name a = Some n /\ adv_role a = Some r /\
              adv = {| name := PyStr.strip n; role := PyStr.strip r |}.

(** An advocate element whose name and role can both be read. *)
Definition advocate_readable (a : advocate_item) : bool :=
  match adv_name a, adv_role a with
  | Some _, Some _ => true
  | _, _ => false
  end.

(** A program that writes no file, or writes one as the last thing it
    does before returning normally. *)
Definition writes_last {S} (m : M S unit) : Prop :=
  forall s t,
    match m s t with
    | (r, _, t') =>
        (exists d, t' = t ++ d /\ Forall (fun e => is_browsing e = true) d) \/
        (r = Ok tt /\
         exists d filename doc,
           t' = t ++ d ++ [Dump filename doc] /\
           Forall (fun e => is_browsing e = true) d)
    end.

Module Pages.

(** A player page whose blocks are there at the first poll. *)
Definition ready (blocks : list block) (attempt : nat) : list block := blocks.

(** The same site run from a directory that takes no new file. *)
Definition read_only (w : world) : world :=
  {| session := session w; listing := listing w; detail := detail w;
     player := player w; writable := fun _ => false |}.

(** A block with no label of its own on a page without any label. *)
Definition unlabelled (words : string) : block :=
  {| b_click := true; b_text := Some words;
     b_start := Some (Some "0.0"); b_stop := Some (Some "4.2");
     b_label := Some None; b_page_labels := Some [] |}.

End Pages.

(** * Properties *)

(** ** Running monadic programs *)

Section Running.
Context {S : Type}.

Lemma bind_ok {A B} (m : M S A) (k : A -> M S B) s t a s' t' :
  m s t = (Ok a, s', t') -> bind m k s t = k a s' t'.
Proof. unfold bind. intros ->. reflexivity. Qed.

Lemma bind_raised {A B} (m : M S A) (k : A -> M S B) s t e s' t' :
  m s t = (Raised e, s', t') -> bind m k s t = (Raised e, s', t').
Proof. unfold bind. intros ->. reflexivity. Qed.

Lemma try_ok {A} (m : M S A) h s t a s' t' :
  m s t = (Ok a, s', t') -> try_ m h s t = (Ok a, s', t').
Proof. unfold try_. intros ->. reflexivity. Qed.

Lemma try_raised {A} (m : M S A) h s t e s' t' :
  m s t = (Raised e, s', t') -> try_ m h s t = h e s' t'.
Proof. unfold try_. intros ->. reflexivity. Qed.

Lemma for_app {A} (xs ys : list A) (body : A -> M S unit) s t :
  for_ (xs ++ ys) body s t =
  match for_ xs body s t with
  | (Ok _, s', t') => for_ ys body s' t'
  | (Raised e, s', t') => (Raised e, s', t')
  end.
Proof.
  revert s t. induction xs as [|x xs IH]; intros s t; simpl.
  - reflexivity.
  - unfold bind. destruct (body x s t) as [[[u|e] s1] t1]; [apply IH | reflexivity].
Qed.

End Running.

(** ** Log discipline *)

Section Log.
Context {S : Type} (P : event -> bool).

Lemma emits_only_ret {A} (a : A) : emits_only P (ret a : M S A).
Proof. intros s t. exists []. simpl. rewrite app_nil_r. auto. Qed.

Lemma emits_only_raise {A} (e : exn) : emits_only P (raise e : M S A).
Proof. intros s t. exists []. simpl. rewrite app_nil_r. auto. Qed.

Lemma emits_only_gets {A} (f : S -> A) : emits_only P (gets f).
Proof. intros s t. exists []. simpl. rewrite app_nil_r. auto. Qed.

Lemma emits_only_modify (f : S -> S) : emits_only P (modify f).
Proof. intros s t. exists []. simpl. rewrite app_nil_r. auto. Qed.

Lemma emits_only_emit (e : event) : P e = true -> emits_only P (emit e : M S unit).
Proof. intros He s t. exists [e]. simpl. auto. Qed.

Lemma emits_only_answer {A} what (a : option A) : emits_only P (answer what a : M S A).
Proof. destruct a; [apply emits_only_ret | apply emits_only_raise]. Qed.

Lemma emits_only_bind {A B} (m : M S A) (k : A -> M S B) :
  emits_only P m -> (forall a, emits_only P (k a)) -> emits_only P (bind m k).
Proof.
  intros Hm Hk s t. unfold bind.
  destruct (Hm s t) as (d & Hd & HP).
  destruct (m s t) as [[r s'] t']. simpl in Hd. subst t'.
  destruct r as [a|e].
  - destruct (Hk a s' (t ++ d)) as (d' & Hd' & HP').
    exists (d ++ d'). rewrite Hd', app_assoc. split; [reflexivity|].
    rewrite Forall_app. auto.
  - exists d. auto.
Qed.

Lemma emits_only_try {A} (m : M S A) (h : exn -> M S A) :
  emits_only P m -> (forall e, emits_only P (h e)) -> emits_only P (try_ m h).
Proof.
  intros Hm Hh s t. unfold try_.
  destruct (Hm s t) as (d & Hd & HP).
  destruct (m s t) as [[r s'] t']. simpl in Hd. subst t'.
  destruct r as [a|e].
  - exists d. auto.
  - destruct (Hh e s' (t ++ d)) as (d' & Hd' & HP').
    exists (d ++ d'). rewrite Hd', app_assoc. split; [reflexivity|].
    rewrite Forall_app. auto.
Qed.

Lemma emits_only_for {A} (xs : list A) (body : A -> M S unit) :
  (forall x, emits_only P (body x)) -> emits_only P (for_ xs body).
Proof.
  intros Hb. induction xs as [|x xs IH]; simpl.
  - apply emits_only_ret.
  - apply emits_only_bind; auto.
Qed.

Lemma emits_only_map {A B} (f : A -> M S B) (xs : list A) :
  (forall x, emits_only P (f x)) -> emits_only P (map_ f xs).
Proof.
  intros Hf. induction xs as [|x xs IH]; simpl.
  - apply emits_only_ret.
  - apply emits_only_bind; [auto|]. intros y.
    apply emits_only_bind; [auto|]. intros ys. apply emits_only_ret.
Qed.

Lemma emits_only_call {S' A} (init : S') (m : M S' A) :
  emits_only P m -> emits_only P (call init m : M S A).
Proof.
  intros Hm s t. unfold call. destruct (Hm init t) as (d & Hd & HP).
  destruct (m init t) as [[r s'] t']. exists d. auto.
Qed.

End Log.

Lemma emits_only_weaken {S A} (P Q : event -> bool) (m : M S A) :
  (forall e, P e = true -> Q e = true) -> emits_only P m -> emits_only Q m.
Proof.
  intros HPQ Hm s t. destruct (Hm s t) as (d & Hd & HP).
  exists d. split; [assumption|]. eapply Forall_impl; eauto.
Qed.

Ltac log_solver :=
  repeat first
    [ apply emits_only_ret
    | apply emits_only_raise
    | apply emits_only_gets
    | apply emits_only_modify
    | apply emits_only_emit; reflexivity
    | apply emits_only_answer
    | apply emits_only_for; intros ?
    | apply emits_only_map; intros ?
    | apply emits_only_call
    | apply emits_only_bind; [| intros ?]
    | apply emits_only_try; [| intros ?]
    | match goal with
      | |- emits_only _ (match ?x with _ => _ end) => destruct x
      end
    | progress cbv zeta
    | assumption ].

Lemma find_target_log {S} case_name items :
  emits_only is_query (find_target case_name items : M S (option case_item)).
Proof.
  induction items as [|c items IH]; simpl.
  - apply emits_only_ret.
  - apply emits_only_bind; [unfold find_element; log_solver|].
    intros [|]; [apply emits_only_ret | exact IH].
Qed.

Lemma get_details_log dp : emits_only is_query (get_details dp).
Proof.
  unfold get_details, get_parties, get_case_details, get_advocates, get_facts,
    get_question, get_conclusion, get_paragraphs, get_oral_argument_url, get_timeline,
    get_citation, timeline_date, read_advocate, webelement_strip, get_header,
    set_item, set_header, find_element, find_elements.
  log_solver.
Qed.

Lemma get_case_metadata_log w case_year case_name :
  emits_only is_query (get_case_metadata w case_year case_name).
Proof.
  unfold get_case_metadata, extract_target, get_specific_metadata, print_titles,
    driver_get, set_item, find_element, find_elements.
  log_solver; try apply find_target_log; try apply get_details_log.
Qed.

(** ** The groups of [get_case_metadata], one at a time *)

Lemma lookup_set_opt_ne k k' o (m : gmap string value) :
  k <> k' -> set_opt k' o m !! k = m !! k.
Proof. intros Hne. destruct o; simpl; [|reflexivity]. apply lookup_insert_ne. congruence. Qed.

Lemma lookup_set_opt_eq k o (m : gmap string value) :
  m !! k = None -> set_opt k o m !! k = o.
Proof. intros Hm. destruct o; simpl; [apply lookup_insert_eq | exact Hm]. Qed.

Ltac mrun :=
  cbv [get_parties get_case_details get_advocates get_facts get_question get_conclusion
       get_paragraphs get_oral_argument_url get_citation timeline_date get_timeline
       read_advocate webelement_strip get_header set_item set_header
       find_element find_elements driver_get answer
       bind ret raise try_ emit gets modify]; simpl.

Lemma get_parties_run dp s t :
  exists t', get_parties dp s t =
    (Ok tt,
     {| metadata := set_opt "respondent" (group_value dp "respondent")
                      (set_opt "petitioner" (group_value dp "petitioner") (metadata s));
        header := header s |}, t').
Proof.
  destruct s as [m h]. unfold group_value. simpl.
  mrun. destruct (dp_parties dp); simpl; [|eexists; reflexivity].
  destruct (dp_petitioner dp); simpl; [|eexists; reflexivity].
  destruct (dp_respondent dp); simpl; eexists; reflexivity.
Qed.

Lemma get_case_details_run dp s t :
  exists t', get_case_details dp s t = (Ok tt, s, t').
Proof. mrun. destruct (dp_docket_no dp); simpl; eexists; reflexivity. Qed.

Lemma read_advocate_run {S} a (s : S) t :
  exists r t', read_advocate a s t = (r, s, t') /\
    match adv_name a, adv_role a with
    | Some n, Some ro => r = Ok {| name := PyStr.strip n; role := PyStr.strip ro |}
    | _, _ => exists e, r = Raised e
    end.
Proof.
  unfold read_advocate. mrun.
  destruct (adv_name a); simpl; [|eauto 6].
  destruct (adv_role a); simpl; eauto 6.
Qed.

Lemma read_advocates_run {S} items (s : S) t :
  exists r t', map_ read_advocate items s t = (r, s, t') /\
    match read_advocates items with
    | Some l => r = Ok l
    | None => exists e, r = Raised e
    end.
Proof.
  revert t. induction items as [|a items IH]; intros t.
  - do 2 eexists. split; reflexivity.
  - unfold read_advocates in *. simpl mapM. simpl map_.
    destruct (read_advocate_run a s t) as (r & t1 & Hr & Ha).
    unfold bind at 1. rewrite Hr.
    destruct (adv_name a) as [n|]; [destruct (adv_role a) as [ro|]|].
    + subst r. destruct (IH t1) as (r' & t2 & Hr' & Hl).
      unfold bind at 1. rewrite Hr'. simpl.
      destruct (mapM _ items); simpl.
      * subst r'. do 2 eexists. split; reflexivity.
      * destruct Hl as [e ->]. do 2 eexists. split; [reflexivity|eauto].
    + destruct Ha as [e ->]. simpl. do 2 eexists. split; [reflexivity|eauto].
    + destruct Ha as [e ->]. simpl. do 2 eexists. split; [reflexivity|eauto].
Qed.

Lemma get_advocates_run dp s t :
  exists t', get_advocates dp s t =
    (Ok tt, {| metadata := set_opt "advocates" (group_value dp "advocates") (metadata s);
               header := header s |}, t').
Proof.
  destruct s as [m h]. unfold group_value. simpl.
  unfold get_advocates, try_, find_element, find_elements.
  destruct (dp_advocates dp) as [items|]; simpl; [|unfold bind; simpl; eexists; reflexivity].
  unfold bind at 1 2 3 4. simpl. unfold bind at 1.
  destruct (read_advocates_run items {| metadata := m; header := h |}
              ((t ++ [Find "div.subcell[ng-if='case.advocates']"]) ++ [Find ".advocate"]))
    as (r & t' & Hr & Hl).
  rewrite Hr. destruct (read_advocates items); simpl.
  - subst r. eexists. reflexivity.
  - destruct Hl as [e ->]. eexists. reflexivity.
Qed.

Lemma get_paragraphs_run key ss ps o s t :
  exists t', get_paragraphs key ss ps o s t =
    (Ok tt, {| metadata := set_opt key (paragraphs_value <$> o) (metadata s);
               header := header s |}, t').
Proof. destruct s as [m h]. mrun. destruct o; simpl; eexists; reflexivity. Qed.

(** The two-tier lookup, with the selectors it queries. *)
Lemma get_oral_argument_url_run dp s t :
  get_oral_argument_url dp s t =
    (Ok tt, {| metadata := <["oral_argument_url" := oral_value dp]> (metadata s);
               header := header s |},
     t ++ Find oral_primary_selector ::
          match dp_oral_primary dp with
          | Some _ => []
          | None => [Find oral_looser_selector]
          end).
Proof.
  destruct s as [m h]. unfold oral_value. mrun.
  destruct (dp_oral_primary dp); simpl; [reflexivity|].
  destruct (dp_oral_looser dp); simpl; rewrite <- app_assoc; reflexivity.
Qed.

(** ** The timeline pass *)

(** One iteration of lines 186-195, case by case. *)
Lemma timeline_date_run item s t :
  timeline_date item s t =
    match ti_header item with
    | Some h =>
        let k := PyStr.lower (PyStr.strip h) in
        (Ok tt,
         {| metadata := <[k := match ti_date item with
                               | Some d => VStr (PyStr.strip d)
                               | None => VNone
                               end]> (metadata s);
            header := Some k |},
         t ++ [Find "h3"; Find "div.ng-binding.ng-scope"])
    | None =>
        match header s with
        | Some k => (Ok tt, {| metadata := <[k := VNone]> (metadata s); header := Some k |},
                     t ++ [Find "h3"])
        | None => (Raised (UnboundLocalError "header"), s, t ++ [Find "h3"])
        end
    end.
Proof.
  destruct s as [m hd]. mrun.
  destruct (ti_header item) as [h|]; simpl.
  - destruct (ti_date item); simpl; rewrite <- app_assoc; reflexivity.
  - destruct hd; reflexivity.
Qed.

(** The pass writes only under the headers it read, or under the header
    left in the local when it started. *)
Lemma timeline_loop_frame items : forall s t,
  exists r s' t', for_ items timeline_date s t = (r, s', t') /\
    forall k, Some k <> header s -> k ∉ omap item_key items ->
              metadata s' !! k = metadata s !! k.
Proof.
  induction items as [|item items IH]; intros s t.
  - do 3 eexists. split; [reflexivity|]. reflexivity.
  - simpl for_. unfold bind. rewrite timeline_date_run.
    unfold item_key at 1. simpl omap.
    destruct (ti_header item) as [h|]; simpl.
    + edestruct IH as (r & s' & t' & Hrun & Hframe). rewrite Hrun.
      do 3 eexists. split; [reflexivity|].
      intros k Hk Hnot. rewrite not_elem_of_cons in Hnot. destruct Hnot as [Hne Hnot].
      rewrite Hframe; simpl; [|congruence|assumption].
      apply lookup_insert_ne. congruence.
    + destruct (header s) as [k0|] eqn:Hh.
      * edestruct IH as (r & s' & t' & Hrun & Hframe). rewrite Hrun.
        do 3 eexists. split; [reflexivity|].
        intros k Hk Hnot. rewrite Hframe; simpl; [|congruence|assumption].
        apply lookup_insert_ne. congruence.
      * do 3 eexists. split; [reflexivity|]. reflexivity.
Qed.

Lemma get_citation_run tl s t :
  exists t', get_citation tl s t =
    (Ok tt, {| metadata := <["citation" := match tl_citation tl with
                                           | Some c => VStr (PyStr.strip c)
                                           | None => VNone
                                           end]> (metadata s);
               header := header s |}, t').
Proof. destruct s as [m h]. mrun. destruct (tl_citation tl); simpl; eexists; reflexivity. Qed.

Lemma get_timeline_run dp s t :
  exists s' t', get_timeline dp s t = (Ok tt, s', t') /\
    (header s = None ->
     forall k, k ∉ timeline_keys dp -> metadata s' !! k = metadata s !! k).
Proof.
  unfold get_timeline, timeline_keys, try_, find_element, find_elements.
  destruct (dp_timeline dp) as [tl|]; simpl.
  - unfold bind at 1 2 3. simpl. unfold bind at 1.
    destruct (get_citation_run tl s (t ++ [Find "div.cell:has(div.subcell)"])) as [t1 Hc].
    rewrite Hc. unfold bind, emit, ret. simpl.
    edestruct (timeline_loop_frame (tl_items tl)) as (r & s' & t' & Hrun & Hframe).
    rewrite Hrun.
    assert (Hk : header s = None ->
                 forall k, k ∉ "citation" :: omap item_key (tl_items tl) ->
                           metadata s' !! k = metadata s !! k).
    { intros Hh k Hnot. rewrite not_elem_of_cons in Hnot. destruct Hnot as [Hne Hnot].
      rewrite Hframe; simpl; [|rewrite Hh; congruence|assumption].
      apply lookup_insert_ne. congruence. }
    destruct r as [[]|]; do 2 eexists; (split; [reflexivity|exact Hk]).
  - unfold bind. simpl. do 2 eexists. split; reflexivity.
Qed.

(** ** The detail page as a whole *)

Lemma get_facts_run dp s t :
  exists t', get_facts dp s t =
    (Ok tt, {| metadata := set_opt "facts" (group_value dp "facts") (metadata s);
               header := header s |}, t').
Proof. apply get_paragraphs_run. Qed.

Lemma get_question_run dp s t :
  exists t', get_question dp s t =
    (Ok tt, {| metadata := set_opt "question" (group_value dp "question") (metadata s);
               header := header s |}, t').
Proof. apply get_paragraphs_run. Qed.

Lemma get_conclusion_run dp s t :
  exists t', get_conclusion dp s t =
    (Ok tt, {| metadata := set_opt "conclusion" (group_value dp "conclusion") (metadata s);
               header := header s |}, t').
Proof. apply get_paragraphs_run. Qed.

Ltac step_with L :=
  let t' := fresh "t" in
  let H := fresh "H" in
  match goal with
  | |- context [bind (?g ?dp) _ ?s ?t] =>
      destruct (L dp s t) as [t' H]; rewrite (bind_ok _ _ _ _ _ _ _ H); clear H
  end.

Lemma get_details_run dp s t :
  exists s' t', get_details dp s t = (Ok tt, s', t') /\
    (header s = None ->
     forall k, k ∉ timeline_keys dp ->
               metadata s' !! k = details_update dp (metadata s) !! k).
Proof.
  unfold get_details.
  step_with get_parties_run. step_with get_case_details_run.
  step_with get_advocates_run. step_with get_facts_run.
  step_with get_question_run. step_with get_conclusion_run.
  erewrite bind_ok by apply get_oral_argument_url_run.
  edestruct get_timeline_run as (s' & t' & Hrun & Hframe). rewrite Hrun.
  do 2 eexists. split; [reflexivity|].
  intros Hh k Hk. rewrite (Hframe Hh k Hk). reflexivity.
Qed.

(** Lines 67-201 never raise: the outer handler absorbs what the groups
    do not. *)
Lemma get_specific_metadata_total w c s t :
  exists s' t', get_specific_metadata w c s t = (Ok tt, s', t').
Proof.
  unfold get_specific_metadata, try_.
  match goal with |- context [?body s t] => destruct (body s t) as [[[[]|e] s1] t1] end;
    do 2 eexists; reflexivity.
Qed.

Lemma extract_target_total w c s t :
  exists md s' t', extract_target w c s t = (Ok md, s', t').
Proof.
  unfold extract_target. unfold bind at 1. simpl.
  edestruct get_specific_metadata_total as (s' & t' & Hrun).
  erewrite bind_ok by exact Hrun. do 3 eexists. reflexivity.
Qed.

Lemma extract_target_run w c title description dp t :
  ci_title c = Some title ->
  ci_description c = Some description ->
  detail w (ci_href c) = Some dp ->
  exists md s' t', extract_target w c md_init t = (Ok md, s', t') /\
    forall k, k ∉ timeline_keys dp ->
      md !! k = details_update dp
                  (<["description" := VStr (PyStr.strip description)]>
                     (<["url" := value_of_attr (ci_href c)]>
                        (<["title" := VStr (PyStr.strip title)]> ∅))) !! k.
Proof.
  intros Ht Hd Hp.
  unfold extract_target, get_specific_metadata, driver_get, find_element, set_item.
  rewrite Ht, Hd, Hp.
  cbv [bind ret raise emit gets modify answer try_ md_init metadata header].
  match goal with
  | |- context [get_details dp ?s ?t] =>
      destruct (get_details_run dp s t) as (s' & t' & Hrun & Hframe)
  end.
  rewrite Hrun. do 3 eexists. split; [reflexivity|].
  intros k Hk. apply (Hframe eq_refl k Hk).
Qed.

(** ** Field isolation in [get_case_metadata] *)

Lemma details_update_lookup dp (m : gmap string value) k :
  k ∈ group_keys ->
  (forall k', k' ∈ group_keys -> m !! k' = None) ->
  details_update dp m !! k = group_value dp k.
Proof.
  intros Hk Hm. unfold details_update, group_keys in *.
  assert (Hcases : k = "petitioner" \/ k = "respondent" \/ k = "advocates" \/
                   k = "facts" \/ k = "question" \/ k = "conclusion" \/
                   k = "oral_argument_url").
  { repeat (apply elem_of_cons in Hk; destruct Hk as [Hk|Hk]; [tauto|]).
    apply elem_of_nil in Hk. contradiction. }
  assert (Hnone : m !! k = None) by (apply Hm; exact Hk).
  destruct Hcases as [->|[->|[->|[->|[->|[->| ->]]]]]];
    repeat (rewrite lookup_insert_ne by discriminate);
    repeat (rewrite lookup_set_opt_ne by discriminate);
    try (apply lookup_insert_eq);
    apply lookup_set_opt_eq;
    repeat (rewrite lookup_set_opt_ne by discriminate); exact Hnone.
Qed.

(** C1 (amended).  Once the target's title and description are read and
    its detail page is open, extraction is isolated per [try] group: each
    of the keys petitioner, respondent, advocates, facts, question,
    conclusion and oral_argument_url ends with the value its own group's
    lookups give -- left out of the mapping when they fail, [None] for the
    oral-argument URL -- whatever happens in the other groups; and the
    procedure returns a mapping on every page, without raising. *)
Theorem metadata_groups_isolated :
  (forall w c s t, exists md s' t', extract_target w c s t = (Ok md, s', t')) /\
  (forall w c title description dp k t,
      ci_title c = Some title ->
      ci_description c = Some description ->
      detail w (ci_href c) = Some dp ->
      k ∈ group_keys ->
      k ∉ timeline_keys dp ->
      exists md s' t',
        extract_target w c md_init t = (Ok md, s', t') /\
        md !! k = group_value dp k).
Proof.
  split; [apply extract_target_total|].
  intros w c title description dp k t Ht Hd Hp Hk Hnot.
  destruct (extract_target_run w c title description dp t Ht Hd Hp)
    as (md & s' & t' & Hrun & Hframe).
  exists md, s', t'. split; [exact Hrun|].
  rewrite (Hframe k Hnot). apply details_update_lookup; [exact Hk|].
  intros k' Hk'. unfold group_keys in Hk'.
  repeat (apply elem_of_cons in Hk'; destruct Hk' as [->|Hk']; [reflexivity|]).
  apply elem_of_nil in Hk'. contradiction.
Qed.

Lemma metadata_groups_isolated_witness :
  exists md s' t',
    extract_target (Sample.site [Sample.moore; Sample.acheson] Sample.details Sample.never)
                   Sample.acheson md_init [] = (Ok md, s', t') /\
    md !! "facts" = group_value Sample.details "facts".
Proof.
  apply (proj2 metadata_groups_isolated
           (Sample.site [Sample.moore; Sample.acheson] Sample.details Sample.never)
           Sample.acheson " Acheson Hotels, LLC v. Laufer " "A case about standing."
           Sample.details "facts" []).
  - reflexivity.
  - reflexivity.
  - reflexivity.
  - apply (bool_decide_unpack _). vm_compute. exact I.
  - apply (bool_decide_unpack _). vm_compute. exact I.
Defined.

(** C1 as stated fails.  On a page without the Petitioner cell the
    respondent is not extracted although its cell is there, and the failed
    field is left out of the mapping; and when the [.description] of the
    chosen entry cannot be read, none of the fields of the detail page is
    extracted although the page has them. *)
Lemma one_failure_skips_other_fields :
  (let w := Sample.site [Sample.moore; Sample.acheson] Sample.details_half_parties
                        Sample.never in
   match fst (fst (get_case_metadata w "2023" "Acheson" md_init [])) with
   | Ok md =>
       dp_respondent Sample.details_half_parties = Some "Respondent Deborah Laufer" /\
       md !! "respondent" = None /\
       md !! "petitioner" = None /\
       md !! "facts" = Some (VStr (String.app "Laufer sued."
                               (String "010" (String "010" "The hotel moved to dismiss."))))
   | Raised _ => False
   end) /\
  (let w := Sample.site [Sample.moore; Sample.acheson_bare] Sample.details Sample.never in
   match fst (fst (get_case_metadata w "2023" "Acheson" md_init [])) with
   | Ok md =>
       md !! "title" = Some (VStr "Acheson Hotels, LLC v. Laufer") /\
       md !! "description" = None /\
       md !! "facts" = None /\ group_value Sample.details "facts" <> None /\
       md !! "advocates" = None /\ group_value Sample.details "advocates" <> None /\
       md !! "oral_argument_url" = None
   | Raised _ => False
   end).
Proof. vm_compute. repeat split; discriminate. Qed.

(** ** Choosing the case in the listing *)

Lemma startswith_spec p s :
  PyStr.startswith p s = true <-> exists r, s = String.app p r.
Proof.
  revert s. induction p as [|a p IH]; intros s; simpl.
  - split; [intros _; exists s; reflexivity | reflexivity].
  - destruct s as [|b s].
    + split; [discriminate | intros [r Hr]; discriminate].
    + destruct (Ascii.eqb a b) eqn:Hab.
      * apply Ascii.eqb_eq in Hab. subst b. rewrite IH.
        split; intros [r Hr]; exists r; [rewrite Hr; reflexivity|].
        injection Hr as Hr. exact Hr.
      * apply Ascii.eqb_neq in Hab.
        split; [discriminate | intros [r Hr]; injection Hr as Hb _; congruence].
Qed.

(** [sub in s] holds exactly when [s] is [sub] between two strings. *)
Lemma contains_spec sub s :
  PyStr.contains sub s = true <->
  exists before after, s = String.app before (String.app sub after).
Proof.
  induction s as [|c s IH]; simpl.
  - rewrite orb_false_r, startswith_spec. split.
    + intros [r Hr]. exists EmptyString, r. exact Hr.
    + intros ([|x before] & after & H); [exists after; exact H | discriminate].
  - rewrite orb_true_iff, startswith_spec, IH. split.
    + intros [[r Hr]|(before & after & H)].
      * exists EmptyString, r. exact Hr.
      * exists (String c before), after. rewrite H. reflexivity.
    + intros ([|x before] & after & H).
      * left. exists after. exact H.
      * right. injection H as _ H. exists before, after. exact H.
Qed.

(** The tokens of [s.split()] are non-empty and free of whitespace. *)
Lemma split_tokens s :
  Forall (fun w => w <> EmptyString /\ has_space w = false) (PyStr.split s).
Proof.
  induction s as [|c r IH]; simpl; [constructor|].
  destruct (PyStr.is_space c) eqn:Hc; [exact IH|].
  destruct r as [|d r'].
  - repeat constructor; [discriminate | simpl; rewrite Hc; reflexivity].
  - destruct (PyStr.is_space d) eqn:Hd.
    + constructor; [|exact IH]. split; [discriminate | simpl; rewrite Hc; reflexivity].
    + destruct (PyStr.split (String d r')) as [|t ts].
      * repeat constructor; [discriminate | simpl; rewrite Hc; reflexivity].
      * inversion IH as [|? ? [Ht1 Ht2] Hts]; subst.
        constructor; [|exact Hts]. split; [discriminate|]. simpl. rewrite Hc. exact Ht2.
Qed.

(** A single word is its own only token. *)
Lemma split_word s :
  s <> EmptyString -> has_space s = false -> PyStr.split s = [s].
Proof.
  induction s as [|c r IH]; intros Hne Hs; [congruence|].
  simpl in Hs. apply orb_false_iff in Hs. destruct Hs as [Hc Hr].
  simpl. rewrite Hc. destruct r as [|d r']; [reflexivity|].
  simpl in Hr. apply orb_false_iff in Hr. destruct Hr as [Hd Hr'].
  rewrite Hd. rewrite IH; [reflexivity | discriminate | simpl; rewrite Hd; exact Hr'].
Qed.

Lemma print_titles_run {S} items (s : S) t :
  exists t', print_titles items s t = (Ok tt, s, t').
Proof.
  unfold print_titles. revert t.
  induction items as [|c items IH]; intros t; simpl.
  - eexists. reflexivity.
  - unfold bind at 1, try_, find_element, emit, answer.
    unfold bind at 1 2. simpl.
    destruct (ci_title c); simpl; apply IH.
Qed.

Lemma find_target_step {S} case_name c items (s : S) t :
  find_target case_name (c :: items) s t =
    if entry_matches case_name c then (Ok (Some c), s, t ++ [Find "h2 a"])
    else find_target case_name items s (t ++ [Find "h2 a"]).
Proof.
  simpl. unfold entry_matches, bind at 1, try_, find_element, emit, answer.
  unfold bind at 1 2. simpl.
  destruct (ci_title c) as [title|]; simpl; [|reflexivity].
  destruct (title_matches case_name (PyStr.strip title)); reflexivity.
Qed.

Lemma find_target_first {S} case_name pre c post (s : S) t :
  Forall (fun x => entry_matches case_name x = false) pre ->
  entry_matches case_name c = true ->
  exists t', find_target case_name (pre ++ c :: post) s t = (Ok (Some c), s, t').
Proof.
  intros Hpre Hc. revert t.
  induction Hpre as [|x pre Hx Hpre IH]; intros t.
  - simpl app. rewrite find_target_step, Hc. eexists. reflexivity.
  - simpl app. rewrite find_target_step, Hx. apply IH.
Qed.

Lemma find_target_none {S} case_name items (s : S) t :
  Forall (fun x => entry_matches case_name x = false) items ->
  exists t', find_target case_name items s t = (Ok None, s, t').
Proof.
  intros Hall. revert t.
  induction Hall as [|x items Hx Hall IH]; intros t.
  - eexists. reflexivity.
  - rewrite find_target_step, Hx. apply IH.
Qed.

Lemma get_case_metadata_target w case_year case_name items s t :
  listing w (listing_url case_year) = Some items ->
  exists t1,
    get_case_metadata w case_year case_name s t =
      match find_target case_name items s t1 with
      | (Ok (Some c), s', t') => extract_target w c s' t'
      | (Ok None, s', t') => (Raised (NotFound case_name), s', t')
      | (Raised e, s', t') => (Raised e, s', t')
      end.
Proof.
  intros Hl. unfold get_case_metadata, driver_get, find_elements. rewrite Hl.
  unfold bind at 1 2 3 4, emit, answer, ret. simpl.
  edestruct (print_titles_run items s) as [t1 Hp].
  unfold bind at 1. rewrite Hp. exists t1. unfold bind.
  destruct (find_target case_name items s t1) as [[[[c|]|e] s'] t']; reflexivity.
Qed.

(** C3.  On a listing that loads, the extractor goes on with the first
    entry, in listing order, whose title contains some whitespace-delimited
    token of the fragment, both lower-cased; when no entry does, it raises
    the not-found exception of line 63.  An entry matches exactly when its
    title can be read and, stripped and lower-cased, has a lower-cased
    token of the fragment as a substring. *)
Theorem first_match_wins :
  forall w case_year case_name items,
    listing w (listing_url case_year) = Some items ->
    (forall pre c post s t,
        items = pre ++ c :: post ->
        Forall (fun x => entry_matches case_name x = false) pre ->
        entry_matches case_name c = true ->
        exists t', get_case_metadata w case_year case_name s t = extract_target w c s t') /\
    (forall s t,
        Forall (fun x => entry_matches case_name x = false) items ->
        exists t', get_case_metadata w case_year case_name s t =
                   (Raised (NotFound case_name), s, t')) /\
    (forall c,
        entry_matches case_name c = true <->
        exists title word before after,
          ci_title c = Some title /\
          word ∈ PyStr.split case_name /\ word <> EmptyString /\ has_space word = false /\
          PyStr.lower (PyStr.strip title) =
            String.app before (String.app (PyStr.lower word) after)).
Proof.
  intros w case_year case_name items Hl. split; [|split].
  - intros pre c post s t -> Hpre Hc.
    destruct (get_case_metadata_target w case_year case_name _ s t Hl) as [t1 Hrun].
    destruct (find_target_first case_name pre c post s t1 Hpre Hc) as [t' Hf].
    rewrite Hrun, Hf. exists t'. reflexivity.
  - intros s t Hall.
    destruct (get_case_metadata_target w case_year case_name _ s t Hl) as [t1 Hrun].
    destruct (find_target_none case_name items s t1 Hall) as [t' Hf].
    rewrite Hrun, Hf. exists t'. reflexivity.
  - intros c. unfold entry_matches, title_matches. split.
    + destruct (ci_title c) as [title|]; [|discriminate].
      intros H. apply existsb_exists in H. destruct H as (word & Hin & Hc).
      apply contains_spec in Hc. destruct Hc as (before & after & Hc).
      exists title, word, before, after. split; [reflexivity|].
      apply list_elem_of_In in Hin.
      pose proof (split_tokens case_name) as Htok.
      rewrite Forall_forall in Htok. destruct (Htok word Hin) as [Hne Hsp].
      repeat split; assumption.
    + intros (title & word & before & after & Ht & Hin & _ & _ & Hc). rewrite Ht.
      apply existsb_exists. exists word. split; [apply list_elem_of_In; exact Hin|].
      apply contains_spec. exists before, after. exact Hc.
Qed.

Lemma first_match_wins_witness :
  exists t', get_case_metadata
               (Sample.site [Sample.moore; Sample.acheson] Sample.details Sample.never)
               "2023" "acheson hotels" md_init [] =
             extract_target
               (Sample.site [Sample.moore; Sample.acheson] Sample.details Sample.never)
               Sample.acheson md_init t'.
Proof.
  apply (proj1 (first_match_wins
                  (Sample.site [Sample.moore; Sample.acheson] Sample.details Sample.never)
                  "2023" "acheson hotels" [Sample.moore; Sample.acheson] eq_refl)
               [Sample.moore] Sample.acheson [] md_init []).
  - reflexivity.
  - repeat constructor.
  - reflexivity.
Defined.

(** ** The timeline handler and the stale [header] local *)

(** C10 (amended).  In the timeline pass the handler of line 193 stores
    [None] under whatever the local [header] holds.  When an item's [h3]
    lookup fails after an earlier item was read, that is the earlier item's
    key, and the date extracted for it is overwritten; the pass goes on.
    When the header is read and only the date lookup fails, [None] goes
    under the item's own key.  When the [h3] lookup of the very first item
    fails the local is unbound, the handler raises, and the remaining items
    are skipped: the timeline group ends with the citation alone. *)
Theorem stale_header_handler :
  (forall item s t k,
      ti_header item = None -> header s = Some k ->
      timeline_date item s t =
        (Ok tt, {| metadata := <[k := VNone]> (metadata s); header := Some k |},
         t ++ [Find "h3"])) /\
  (forall prev item rest h d s t,
      ti_header prev = Some h -> ti_date prev = Some d -> ti_header item = None ->
      exists s1 t1,
        for_ [prev; item] timeline_date s t = (Ok tt, s1, t1) /\
        metadata s1 !! PyStr.lower (PyStr.strip h) = Some VNone /\
        for_ (prev :: item :: rest) timeline_date s t = for_ rest timeline_date s1 t1) /\
  (forall item s t h,
      ti_header item = Some h -> ti_date item = None ->
      timeline_date item s t =
        (Ok tt, {| metadata := <[PyStr.lower (PyStr.strip h) := VNone]> (metadata s);
                   header := Some (PyStr.lower (PyStr.strip h)) |},
         t ++ [Find "h3"; Find "div.ng-binding.ng-scope"])) /\
  (forall item rest s t,
      ti_header item = None -> header s = None ->
      for_ (item :: rest) timeline_date s t =
        (Raised (UnboundLocalError "header"), s, t ++ [Find "h3"])) /\
  (forall dp tl item rest s t,
      dp_timeline dp = Some tl -> tl_items tl = item :: rest ->
      ti_header item = None -> header s = None ->
      exists t',
        get_timeline dp s t =
          (Ok tt, {| metadata := <["citation" := match tl_citation tl with
                                                 | Some c => VStr (PyStr.strip c)
                                                 | None => VNone
                                                 end]> (metadata s);
                     header := None |}, t')).
Proof.
  split; [|split; [|split; [|split]]].
  - intros item s t k Hi Hs. rewrite timeline_date_run, Hi, Hs. reflexivity.
  - intros prev item rest h d s t Hp Hd Hi.
    simpl for_. unfold bind. rewrite timeline_date_run, Hp, Hd. simpl.
    rewrite timeline_date_run, Hi. simpl.
    do 2 eexists. split; [reflexivity|]. split; [|reflexivity].
    simpl. apply lookup_insert_eq.
  - intros item s t h Hi Hd. rewrite timeline_date_run, Hi, Hd. reflexivity.
  - intros item rest s t Hi Hs. simpl for_. unfold bind.
    rewrite timeline_date_run, Hi, Hs. reflexivity.
  - intros dp tl item rest s t Hdp Htl Hi Hs.
    unfold get_timeline, try_, find_element, find_elements. rewrite Hdp.
    unfold bind at 1 2 3. simpl. unfold bind at 1.
    destruct (get_citation_run tl s (t ++ [Find "div.cell:has(div.subcell)"])) as [t1 Hc].
    rewrite Hc. unfold bind, emit, ret. cbn beta iota. rewrite Htl.
    cbn [for_]. unfold bind. rewrite timeline_date_run, Hi. cbn [header]. rewrite Hs.
    eexists. reflexivity.
Qed.

Lemma stale_header_handler_witness :
  exists s1 t1,
    for_ [Sample.granted; Sample.headless] timeline_date md_init [] = (Ok tt, s1, t1) /\
    metadata s1 !! PyStr.lower (PyStr.strip "Granted") = Some VNone /\
    for_ [Sample.granted; Sample.headless] timeline_date md_init [] =
      for_ [] timeline_date s1 t1.
Proof.
  apply (proj1 (proj2 stale_header_handler)
           Sample.granted Sample.headless [] "Granted" "Mar 27, 2023" md_init []).
  - reflexivity.
  - reflexivity.
  - reflexivity.
Defined.

(** C10 as stated fails: when it is the date of an item that cannot be
    read, after an earlier item succeeded, [None] is stored under the
    item's own header and the earlier date stays. *)
Lemma date_failure_keeps_earlier_date :
  ti_header Sample.argued_undated = Some "Argued" /\
  ti_date Sample.argued_undated = None /\
  match for_ [Sample.granted; Sample.argued_undated] timeline_date md_init [] with
  | (r, s, _) =>
      r = Ok tt /\
      metadata s !! "granted" = Some (VStr "Mar 27, 2023") /\
      metadata s !! "argued" = Some VNone
  end.
Proof. vm_compute. repeat split. Qed.

(** ** One iteration of the transcript loop *)

Ltac brun :=
  cbv [step process_block block_body resolve_speaker carry_or_fallback fallback_speaker
       set_speaker append_entry find_element answer speaker_truthy
       bind ret raise try_ emit gets modify fst snd
       b_click b_text b_start b_stop b_label b_page_labels transcript current_speaker].

Ltac case_step :=
  first
    [ match goal with
      | |- context [match ?x with _ => _ end] => is_var x; destruct x; cbn beta iota
      end
    | match goal with
      | |- context [PyStr.truthy ?y] =>
          destruct (PyStr.truthy y) eqn:?; cbn [negb andb]; cbn beta iota
      end ].

(** An iteration returns normally, moves the locals by [step] whatever the
    index and the log, and appends to the log only its own script calls and
    the fallback lookup. *)
Lemma process_block_run i b s t :
  exists d, process_block (i, b) s t = (Ok tt, step b s, t ++ d) /\
            Click i ∈ d /\
            Forall (fun e => is_browsing e = true /\ in_session e = true) d.
Proof.
  destruct b as [click txt st sp lbl page]. destruct s as [tr cs].
  brun.
  repeat case_step;
   (eexists; split; [rewrite <- ?app_assoc; reflexivity|];
    split; [apply elem_of_cons; left; reflexivity|];
    repeat (constructor; try (split; reflexivity))).
Qed.

(** A block whose reads raise leaves the locals alone. *)
Lemma step_failed b s : block_reads b = None -> step b s = s.
Proof.
  destruct b as [click txt st sp lbl page]. destruct s as [tr cs].
  unfold block_reads. brun. intros H.
  repeat case_step; try discriminate; reflexivity.
Qed.

(** An iteration appends what [emitted_by] says, and nothing else. *)
Lemma step_transcript b s :
  transcript (step b s) = transcript s ++ emitted_by b s.
Proof.
  destruct b as [click txt st sp lbl page]. destruct s as [tr cs].
  unfold emitted_by, block_reads, resolved_speaker. brun.
  repeat case_step; cbn [andb]; rewrite ?app_nil_r; try reflexivity; congruence.
Qed.

(** A declared label becomes the current speaker. *)
Lemma step_label b s words start stop l :
  block_reads b = Some (words, start, stop, Some l) ->
  PyStr.truthy l = true ->
  current_speaker (step b s) = Some (PyStr.strip l).
Proof.
  destruct b as [click txt st sp lbl page]. destruct s as [tr cs].
  unfold block_reads. brun. intros H Hl.
  repeat case_step; try discriminate; injection H as _ _ _ ->; try reflexivity; congruence.
Qed.

(** Without a label of its own a block keeps an established speaker. *)
Lemma step_keeps b s :
  declares_label b = false ->
  speaker_truthy (current_speaker s) = true ->
  current_speaker (step b s) = current_speaker s.
Proof.
  destruct b as [click txt st sp lbl page]. destruct s as [tr cs].
  unfold declares_label. brun. intros H Hs.
  repeat case_step; try discriminate; try reflexivity; congruence.
Qed.

(** With no label and no speaker established, the first label found on the
    page is taken, when there is one. *)
Lemma step_fallback b s words start stop label :
  block_reads b = Some (words, start, stop, label) ->
  declares_label b = false ->
  speaker_truthy (current_speaker s) = false ->
  current_speaker (step b s) =
    match b_page_labels b with
    | Some (Some first :: _) => Some (PyStr.strip first)
    | _ => current_speaker s
    end.
Proof.
  destruct b as [click txt st sp lbl page]. destruct s as [tr cs].
  unfold block_reads, declares_label. brun. intros H Hd Hs.
  repeat case_step; try discriminate; try reflexivity; congruence.
Qed.

(** The speaker resolved for a block whose reads succeed is the one the
    loop holds after it. *)
Lemma step_resolved b s words start stop label sp :
  block_reads b = Some (words, start, stop, label) ->
  resolved_speaker b (current_speaker s) = Some sp ->
  current_speaker (step b s) = Some sp.
Proof.
  destruct b as [click txt st spt lbl page]. destruct s as [tr cs].
  unfold block_reads, resolved_speaker. brun. intros H Hr.
  repeat case_step; try discriminate; try congruence.
Qed.

(** An emitted entry carries the block's text and timings and the speaker
    the loop holds after the block, both non-empty. *)
Lemma emitted_by_cases b s :
  emitted_by b s = [] \/
  exists e, emitted_by b s = [e] /\ entry_of_block e b /\
            current_speaker (step b s) = Some (speaker e) /\
            PyStr.truthy (speaker e) = true /\ PyStr.truthy (text e) = true.
Proof.
  unfold emitted_by.
  destruct (block_reads b) as [[[[words start] stop] label]|] eqn:Hreads;
    [|left; reflexivity].
  destruct (resolved_speaker b (current_speaker s)) as [sp|] eqn:Hres;
    [|left; reflexivity].
  destruct (PyStr.truthy words) eqn:Hw; [|left; reflexivity].
  destruct (PyStr.truthy sp) eqn:Hsp; [|left; reflexivity].
  right. eexists. split; [reflexivity|]. simpl.
  split; [|split; [exact (step_resolved b s _ _ _ _ _ Hreads Hres)|split; assumption]].
  unfold entry_of_block, block_reads in *. simpl.
  destruct (b_click b); [|discriminate].
  destruct (b_text b) as [raw|]; [|discriminate].
  destruct (b_start b) as [st|]; [|discriminate].
  destruct (b_stop b) as [sp'|]; [|discriminate].
  destruct (b_label b); [|discriminate].
  injection Hreads as <- <- <- _. exists raw. auto.
Qed.

(** The speaker of an emitted entry is the one resolved for its block. *)
Lemma emitted_speaker b s e :
  emitted_by b s = [e] -> resolved_speaker b (current_speaker s) = Some (speaker e).
Proof.
  unfold emitted_by.
  destruct (block_reads b) as [[[[words start] stop] label]|]; [|discriminate].
  destruct (resolved_speaker b (current_speaker s)) as [sp|]; [|discriminate].
  destruct (PyStr.truthy words && PyStr.truthy sp); [|discriminate].
  intros [= <-]. reflexivity.
Qed.

(** ** The loop over the blocks *)

Lemma steps_app xs ys s : steps (xs ++ ys) s = steps ys (steps xs s).
Proof. unfold steps. apply foldl_app. Qed.

(** The loop never raises, visits every block, and ends in [steps]. *)
Lemma loop_run blocks : forall i s t,
  exists d, for_ (enumerate_from i blocks) process_block s t = (Ok tt, steps blocks s, t ++ d) /\
            (forall k, k < length blocks -> Click (i + k) ∈ d) /\
            Forall (fun e => is_browsing e = true /\ in_session e = true) d.
Proof.
  induction blocks as [|b blocks IH]; intros i s t.
  - exists []. simpl. rewrite app_nil_r. split; [reflexivity|]. split; [|constructor].
    intros k Hk. simpl in Hk. lia.
  - simpl enumerate_from. simpl for_.
    destruct (process_block_run i b s t) as (d1 & Hrun & Hclick & Hd1).
    rewrite (bind_ok _ _ _ _ _ _ _ Hrun).
    destruct (IH (S i) (step b s) (t ++ d1)) as (d2 & Hrest & Hclicks & Hd2).
    rewrite Hrest. exists (d1 ++ d2). rewrite app_assoc.
    split; [reflexivity|]. split; [|apply Forall_app; auto].
    intros [|k] Hk.
    + rewrite Nat.add_0_r. apply elem_of_app. left. exact Hclick.
    + apply elem_of_app. right. replace (i + S k) with (S i + k) by lia.
      apply Hclicks. simpl in Hk. lia.
Qed.

Lemma run_blocks_steps i blocks s : run_blocks i blocks s = steps blocks s.
Proof.
  unfold run_blocks. destruct (loop_run blocks i s []) as (d & Hrun & _).
  rewrite Hrun. reflexivity.
Qed.

Lemma steps_transcript blocks : forall s,
  exists es kept,
    transcript (steps blocks s) = transcript s ++ es /\
    kept `sublist_of` blocks /\
    Forall2 entry_of_block es kept.
Proof.
  induction blocks as [|b blocks IH]; intros s.
  - exists [], []. simpl. rewrite app_nil_r. repeat split; constructor.
  - destruct (IH (step b s)) as (es & kept & Hes & Hsub & Hall).
    change (steps (b :: blocks) s) with (steps blocks (step b s)).
    rewrite Hes, step_transcript.
    destruct (emitted_by_cases b s) as [->|(e & -> & He & _)].
    + exists es, kept. rewrite app_nil_r. split; [reflexivity|].
      split; [apply sublist_cons; exact Hsub | exact Hall].
    + exists (e :: es), (b :: kept). rewrite <- app_assoc. split; [reflexivity|].
      split; [apply sublist_skip; exact Hsub | constructor; assumption].
Qed.

Lemma steps_keep_speaker blocks : forall s,
  Forall (fun b => declares_label b = false) blocks ->
  speaker_truthy (current_speaker s) = true ->
  current_speaker (steps blocks s) = current_speaker s.
Proof.
  induction blocks as [|b blocks IH]; intros s Hall Hs; [reflexivity|].
  inversion Hall as [|? ? Hb Hrest]; subst.
  change (steps (b :: blocks) s) with (steps blocks (step b s)).
  assert (Hk := step_keeps b s Hb Hs).
  rewrite IH; [exact Hk | exact Hrest | rewrite Hk; exact Hs].
Qed.

(** ** Speaker attribution *)

(** C2 (amended).  When a block yields an entry, the entry's speaker is
    the block's own turn label, stripped, if that label is there and not
    empty; otherwise it is the speaker the loop had established before the
    block, and the first label of the page, stripped, when none was
    established.  The established speaker is the one of the preceding
    emitted entry whenever no block between the two declared a label; a
    labelled block that yields no entry still changes it. *)
Theorem carry_over :
  forall (pre : list block) (b : block) (s0 : tr_locals) (e : entry),
    transcript (run_blocks 0 (pre ++ [b]) s0) = transcript (run_blocks 0 pre s0) ++ [e] ->
    (forall l, b_label b = Some (Some l) -> PyStr.truthy l = true ->
               speaker e = PyStr.strip l) /\
    (declares_label b = false ->
     speaker_truthy (current_speaker (run_blocks 0 pre s0)) = true ->
     current_speaker (run_blocks 0 pre s0) = Some (speaker e)) /\
    (declares_label b = false ->
     forall pre1 b0 mid e0,
       pre = pre1 ++ b0 :: mid ->
       transcript (run_blocks 0 (pre1 ++ [b0]) s0) =
         transcript (run_blocks 0 pre1 s0) ++ [e0] ->
       Forall (fun x => declares_label x = false) mid ->
       speaker e = speaker e0) /\
    (declares_label b = false ->
     speaker_truthy (current_speaker (run_blocks 0 pre s0)) = false ->
     exists first rest,
       b_page_labels b = Some (Some first :: rest) /\
       speaker e = PyStr.strip first).
Proof.
  intros pre b s0 e. rewrite !run_blocks_steps, steps_app.
  set (s := steps pre s0). change (steps [b] s) with (step b s).
  rewrite step_transcript. intros Hemit. apply app_inv_head in Hemit.
  destruct (emitted_by_cases b s) as [Hnil|(e' & He' & Hblock & Hcs & Hsp & _)];
    [rewrite Hnil in Hemit; discriminate|].
  rewrite He' in Hemit. injection Hemit as ->.
  pose proof (emitted_speaker b s e He') as Hres.
  assert (Hreads : block_reads b <> None).
  { intros Hnone. unfold emitted_by in He'. rewrite Hnone in He'. discriminate. }
  assert (Hcarry : declares_label b = false ->
                   speaker_truthy (current_speaker s) = true ->
                   current_speaker s = Some (speaker e)).
  { intros Hb Hs. rewrite <- (step_keeps b s Hb Hs). exact Hcs. }
  split; [|split; [|split]].
  - intros l Hl Htruthy.
    destruct (block_reads b) as [[[[words start] stop] label]|] eqn:Hr; [|congruence].
    assert (label = Some l) as ->.
    { unfold block_reads in Hr. rewrite Hl in Hr.
      destruct (b_click b), (b_text b), (b_start b), (b_stop b); congruence. }
    rewrite (step_label b s _ _ _ _ Hr Htruthy) in Hcs. congruence.
  - exact Hcarry.
  - intros Hb pre1 b0 mid e0 Hpre Hemit0 Hmid.
    rewrite !run_blocks_steps, steps_app in Hemit0.
    change (steps [b0] (steps pre1 s0)) with (step b0 (steps pre1 s0)) in Hemit0.
    rewrite step_transcript in Hemit0. apply app_inv_head in Hemit0.
    destruct (emitted_by_cases b0 (steps pre1 s0))
      as [Hnil|(e1 & He1 & _ & Hcs0 & Hsp0 & _)];
      [rewrite Hnil in Hemit0; discriminate|].
    rewrite He1 in Hemit0. injection Hemit0 as ->.
    assert (Hs : current_speaker s = Some (speaker e0)).
    { unfold s. rewrite Hpre, steps_app.
      change (steps (b0 :: mid) (steps pre1 s0))
        with (steps mid (step b0 (steps pre1 s0))).
      rewrite steps_keep_speaker; [exact Hcs0 | exact Hmid |].
      rewrite Hcs0. exact Hsp0. }
    assert (Hs' : current_speaker s = Some (speaker e)).
    { apply Hcarry; [exact Hb|]. rewrite Hs. exact Hsp0. }
    congruence.
  - intros Hb Hs. unfold resolved_speaker in Hres. unfold declares_label in Hb.
    destruct (b_label b) as [[l|]|]; [rewrite Hb in Hres | | discriminate];
      rewrite Hs in Hres;
      destruct (b_page_labels b) as [[|[first|] rest]|]; try discriminate;
      injection Hres as Hres; eauto.
Qed.

(** On six blocks with a label on the first and the fourth, the sixth
    block is reached with the fourth's label established, and its entry
    has the speaker of the fourth entry; an unlabelled block that opens a
    transcript takes the first label of the page. *)
Lemma carry_over_witness :
  let sixth := {| speaker := "Adam G. Unikowsky"; text := "the Court.";
                  start_time := Some "0.0"; stop_time := Some "4.2" |} in
  let fourth := {| speaker := "Adam G. Unikowsky"; text := "Mr. Chief Justice,";
                   start_time := Some "0.0"; stop_time := Some "4.2" |} in
  let opening := {| speaker := "John G. Roberts, Jr."; text := "Mr. Unikowsky.";
                    start_time := Some "0.0"; stop_time := Some "4.2" |} in
  current_speaker (run_blocks 0 (take 5 Sample.every_third) tr_init) =
    Some (speaker sixth) /\
  speaker sixth = speaker fourth /\
  exists first rest,
    b_page_labels (Sample.said None "Mr. Unikowsky.") = Some (Some first :: rest) /\
    speaker opening = PyStr.strip first.
Proof.
  intros sixth fourth opening.
  assert (Hemit : transcript (run_blocks 0 (take 5 Sample.every_third ++
                                            [Sample.said None "the Court."]) tr_init) =
                  transcript (run_blocks 0 (take 5 Sample.every_third) tr_init) ++ [sixth])
    by (vm_compute; reflexivity).
  destruct (carry_over (take 5 Sample.every_third) (Sample.said None "the Court.")
              tr_init sixth Hemit) as (_ & Hcarry & Hprev & _).
  assert (Hopen : transcript (run_blocks 0 ([] ++ [Sample.said None "Mr. Unikowsky."])
                                tr_init) =
                  transcript (run_blocks 0 [] tr_init) ++ [opening])
    by (vm_compute; reflexivity).
  destruct (carry_over [] (Sample.said None "Mr. Unikowsky.") tr_init opening Hopen)
    as (_ & _ & _ & Hfallback).
  split; [|split].
  - apply Hcarry; [reflexivity | vm_compute; reflexivity].
  - apply (Hprev eq_refl (take 3 Sample.every_third)
             (Sample.said (Some " Adam G. Unikowsky ") "Mr. Chief Justice,")
             [Sample.said None "and may it please"] fourth).
    + reflexivity.
    + vm_compute. reflexivity.
    + repeat constructor.
  - apply Hfallback; reflexivity.
Defined.

(** The speakers of the six entries. *)
Example every_third_speakers :
  map speaker (transcript_of true Sample.every_third) =
    [ "John G. Roberts, Jr."; "John G. Roberts, Jr."; "John G. Roberts, Jr.";
      "Adam G. Unikowsky"; "Adam G. Unikowsky"; "Adam G. Unikowsky" ].
Proof. vm_compute. reflexivity. Qed.

(** C2 as stated fails: the third block has no label, the entry before
    its own is the first block's, and yet its speaker is the label of the
    second block, which yielded no entry. *)
Lemma carry_over_skips_silent_turn :
  transcript_of true Sample.silent_turn =
    [ {| speaker := "John G. Roberts, Jr."; text := "Thank you, counsel.";
         start_time := Some "0.0"; stop_time := Some "4.2" |};
      {| speaker := "Elena Kagan"; text := "I have a question.";
         start_time := Some "0.0"; stop_time := Some "4.2" |} ] /\
  (b_label <$> Sample.silent_turn !! 2) = Some (Some None) /\
  "Elena Kagan" <> "John G. Roberts, Jr.".
Proof. vm_compute. repeat split. discriminate. Qed.

(** ** Which blocks yield entries *)

Lemma steps_length blocks : forall s,
  length (transcript (steps blocks s)) <= length (transcript s) + length blocks.
Proof.
  induction blocks as [|b blocks IH]; intros s; simpl; [lia|].
  change (steps (b :: blocks) s) with (steps blocks (step b s)).
  specialize (IH (step b s)). rewrite step_transcript, length_app in IH.
  destruct (emitted_by_cases b s) as [H|(e & H & _)]; rewrite H in IH; simpl in IH; lia.
Qed.

Lemma truthy_spec x : PyStr.truthy x = true <-> x <> EmptyString.
Proof. destruct x; simpl; split; congruence. Qed.

(** C5.  In sample mode the transcript has at most three entries.  In
    full mode every block adds, right after the entries of the blocks
    before it, exactly one entry -- its stripped text, its timings and its
    resolved speaker -- when its reads succeed, that text is not empty and
    the speaker resolved for it (own label, else carried speaker, else
    first label of the page) is not empty, and no entry otherwise; in
    particular a block with a text and a label of its own always yields
    its entry. *)
Theorem mode_limits :
  (forall blocks, length (transcript_of false blocks) <= 3) /\
  (forall pre b post,
      exists later,
        length later <= length post /\
        transcript_of true (pre ++ b :: post) =
          transcript_of true pre ++ emitted_by b (run_blocks 0 pre tr_init) ++ later) /\
  (forall b s,
      length (emitted_by b s) <= 1 /\
      (block_reads b = None -> emitted_by b s = []) /\
      (forall words start stop label,
          block_reads b = Some (words, start, stop, label) ->
          (words = EmptyString \/
           speaker_truthy (resolved_speaker b (current_speaker s)) = false) ->
          emitted_by b s = []) /\
      (forall words start stop label sp,
          block_reads b = Some (words, start, stop, label) ->
          words <> EmptyString ->
          resolved_speaker b (current_speaker s) = Some sp ->
          sp <> EmptyString ->
          emitted_by b s =
            [{| speaker := sp; text := words; start_time := start; stop_time := stop |}])) /\
  (forall b s words start stop l,
      block_reads b = Some (words, start, stop, Some l) ->
      words <> EmptyString ->
      PyStr.strip l <> EmptyString ->
      transcript (step b s) =
        transcript s ++
        [{| speaker := PyStr.strip l; text := words;
            start_time := start; stop_time := stop |}]).
Proof.
  split; [|split; [|split]].
  - intros blocks. unfold transcript_of, limit_blocks. rewrite run_blocks_steps.
    pose proof (steps_length (take 3 blocks) tr_init) as H.
    rewrite length_take in H. unfold tr_init in *. cbn [transcript length] in H. lia.
  - intros pre b post. unfold transcript_of, limit_blocks.
    rewrite !run_blocks_steps, steps_app.
    change (steps (b :: post) (steps pre tr_init))
      with (steps post (step b (steps pre tr_init))).
    destruct (steps_transcript post (step b (steps pre tr_init)))
      as (es & kept & Hes & Hsub & Hall).
    exists es. split.
    + apply Forall2_length in Hall. apply sublist_length in Hsub. lia.
    + rewrite Hes, step_transcript, <- app_assoc. reflexivity.
  - intros b s. split; [|split; [|split]].
    + destruct (emitted_by_cases b s) as [->|(e & -> & _)]; simpl; lia.
    + intros H. unfold emitted_by. rewrite H. reflexivity.
    + intros words start stop label H Hor. unfold emitted_by. rewrite H.
      destruct (resolved_speaker b (current_speaker s)) as [sp|]; [|reflexivity].
      destruct Hor as [->|Hsp]; [reflexivity|].
      simpl in Hsp. rewrite Hsp, andb_false_r. reflexivity.
    + intros words start stop label sp H Hw Hres Hsp. unfold emitted_by.
      rewrite H, Hres.
      apply truthy_spec in Hw. apply truthy_spec in Hsp. rewrite Hw, Hsp. reflexivity.
  - intros b s words start stop l Hr Hw Hl.
    rewrite step_transcript. unfold emitted_by. rewrite Hr.
    assert (Hlabel : b_label b = Some (Some l)).
    { unfold block_reads in Hr.
      destruct (b_click b), (b_text b), (b_start b), (b_stop b), (b_label b);
        simpl in Hr; try discriminate Hr. injection Hr as _ _ _ ->. reflexivity. }
    assert (Htl : PyStr.truthy l = true).
    { apply truthy_spec. intros ->. apply Hl. reflexivity. }
    unfold resolved_speaker. rewrite Hlabel, Htl.
    apply truthy_spec in Hw. apply truthy_spec in Hl. rewrite Hw, Hl. reflexivity.
Qed.

(** A block with a text and a label of its own yields its entry, whatever
    speaker was carried into it. *)
Lemma mode_limits_witness :
  transcript (step (Sample.said (Some " Elena Kagan ") " May I ask ")
                   {| transcript := []; current_speaker := Some "John G. Roberts, Jr." |}) =
    [] ++ [{| speaker := PyStr.strip " Elena Kagan "; text := "May I ask";
              start_time := Some "0.0"; stop_time := Some "4.2" |}].
Proof.
  apply (proj2 (proj2 (proj2 mode_limits))
           (Sample.said (Some " Elena Kagan ") " May I ask ")
           {| transcript := []; current_speaker := Some "John G. Roberts, Jr." |}
           "May I ask" (Some "0.0") (Some "4.2") " Elena Kagan ").
  - reflexivity.
  - discriminate.
  - vm_compute. discriminate.
Defined.

(** ** Failures inside the loop *)

(** What an iteration does to the locals, by outcome. *)
Lemma process_block_outcome i b s t :
  exists s' t', process_block (i, b) s t = (Ok tt, s', t') /\
    match outcome_of i b s with
    | FAILED => s' = s
    | SKIPPED => transcript s' = transcript s
    | APPENDED => exists e, transcript s' = transcript s ++ [e]
    end.
Proof.
  destruct b as [click txt st sp lbl page]. destruct s as [tr cs].
  unfold outcome_of. brun.
  repeat case_step; do 2 eexists; (split; [reflexivity|]);
    cbn [transcript]; rewrite ?Nat.eqb_refl; try reflexivity;
    (replace (Nat.eqb (length (tr ++ _)) (length tr)) with false
       by (symmetry; apply Nat.eqb_neq; rewrite length_app; simpl; lia));
    eexists; reflexivity.
Qed.

(** A block whose reads raise ends FAILED. *)
Lemma failed_reads i b s : block_reads b = None -> outcome_of i b s = FAILED.
Proof.
  destruct b as [click txt st sp lbl page]. destruct s as [tr cs].
  unfold outcome_of, block_reads. brun. intros H.
  repeat case_step; try discriminate; reflexivity.
Qed.

(** C6.  An iteration never raises: whatever its block does, the handler
    of line 338 absorbs it.  The block ends FAILED with the locals
    untouched, SKIPPED with the transcript untouched, or APPENDED with one
    more entry; and the loop returns normally after having clicked every
    block, the ones after a failure included. *)
Theorem block_failures_isolated :
  (forall i b s t,
      exists s' t', process_block (i, b) s t = (Ok tt, s', t') /\
        match outcome_of i b s with
        | FAILED => s' = s
        | SKIPPED => transcript s' = transcript s
        | APPENDED => exists e, transcript s' = transcript s ++ [e]
        end) /\
  (forall i b s, block_reads b = None -> outcome_of i b s = FAILED) /\
  (forall blocks i s t,
      exists s' d,
        for_ (enumerate_from i blocks) process_block s t = (Ok tt, s', t ++ d) /\
        forall k, k < length blocks -> Click (i + k) ∈ d).
Proof.
  split; [exact process_block_outcome|]. split; [exact failed_reads|].
  intros blocks i s t. destruct (loop_run blocks i s t) as (d & Hrun & Hclick & _).
  exists (steps blocks s), d. split; assumption.
Qed.

Lemma block_failures_isolated_witness :
  outcome_of 1 (Sample.stale (Some "Elena Kagan") "May I ask") tr_init = FAILED /\
  exists s' d,
    for_ (enumerate_from 0 Sample.broken) process_block tr_init [] = (Ok tt, s', [] ++ d) /\
    Click (0 + 2) ∈ d.
Proof.
  split.
  - apply (proj1 (proj2 block_failures_isolated)). reflexivity.
  - destruct (proj2 (proj2 block_failures_isolated) Sample.broken 0 tr_init [])
      as (s' & d & Hrun & Hclick).
    exists s', d. split; [exact Hrun|]. apply Hclick. simpl. lia.
Defined.

(** ** Document order *)

(** C9.  In either mode the transcript lists, in page order, entries of
    distinct blocks: there is a subsequence of the blocks found on the page
    whose texts and timings are, one by one, those of the entries. *)
Theorem document_order :
  forall full_transcript blocks,
    exists kept,
      kept `sublist_of` blocks /\
      Forall2 entry_of_block (transcript_of full_transcript blocks) kept.
Proof.
  intros full_transcript blocks. unfold transcript_of. rewrite run_blocks_steps.
  destruct (steps_transcript (limit_blocks full_transcript blocks) tr_init)
    as (es & kept & Hes & Hsub & Hall).
  exists kept. split.
  - etrans; [exact Hsub|]. unfold limit_blocks.
    destruct full_transcript; [reflexivity | apply sublist_take].
  - rewrite Hes. exact Hall.
Qed.

(** ** The run as a whole *)

Lemma poll_blocks_log {S} pp attempts blocks :
  emits_only in_session (poll_blocks pp attempts blocks : M S (list block)).
Proof.
  revert blocks. induction attempts as [|a attempts IH]; intros blocks; simpl.
  - apply emits_only_ret.
  - unfold find_elements. log_solver. apply IH.
Qed.

(** Three empty polls leave no blocks. *)
Lemma poll_blocks_empty {S} pp (s : S) t :
  pp_polls pp 0 = [] -> pp_polls pp 1 = [] -> pp_polls pp 2 = [] ->
  poll_blocks pp [0; 1; 2] [] s t =
    (Ok [], s, t ++ [Find block_selector; Find block_selector; Find block_selector]).
Proof.
  intros H0 H1 H2. simpl. unfold find_elements, bind, emit, ret.
  rewrite H0, H1, H2. rewrite <- !app_assoc. reflexivity.
Qed.

Lemma query_in_session e : is_query e = true -> in_session e = true.
Proof. destruct e; simpl; intros H; try discriminate H; reflexivity. Qed.

Lemma process_block_log ib : emits_only in_session (process_block ib).
Proof.
  intros s t. destruct ib as [i b].
  destruct (process_block_run i b s t) as (d & Hrun & _ & Hd).
  exists d. rewrite Hrun. split; [reflexivity|].
  eapply Forall_impl; [exact Hd|]. intros e [_ He]. exact He.
Qed.

Lemma save_result_log w md full_transcript :
  emits_only in_session (save_result w md full_transcript).
Proof. unfold save_result, getitem, value_replace. log_solver. Qed.

(** Between the creation of the session and its release, no session is
    opened or closed. *)
Lemma scrape_log w case_year case_name full_transcript :
  emits_only in_session (scrape w case_year case_name full_transcript).
Proof.
  unfold scrape. apply emits_only_bind.
  { apply emits_only_call. apply (emits_only_weaken is_query).
    - exact query_in_session.
    - apply get_case_metadata_log. }
  intros md. cbv zeta.
  destruct (negb (value_truthy (dict_get md "oral_argument_url")));
    [apply emits_only_ret|].
  apply emits_only_bind; [unfold driver_get; log_solver|]. intros pp.
  apply emits_only_bind; [apply poll_blocks_log|]. intros blocks.
  destruct blocks as [|b blocks]; [apply emits_only_raise|].
  apply emits_only_bind; [apply emits_only_modify|]. intros _.
  apply emits_only_bind; [apply emits_only_for; exact process_block_log|]. intros _.
  apply save_result_log.
Qed.

Lemma get_transcript_of_scrape w case_year case_name full_transcript r s' t' :
  session w = true ->
  scrape w case_year case_name full_transcript tr_init [Open] = (r, s', t') ->
  get_transcript_with_selenium w case_year case_name full_transcript = (Ok tt, t' ++ [Quit]).
Proof.
  intros Hs Hrun. unfold get_transcript_with_selenium, finally_, try_, emit, ret.
  rewrite Hs, Hrun. destruct r as [[]|e]; reflexivity.
Qed.

Lemma scrape_metadata_raised w case_year case_name full_transcript s t e s1 t1 :
  get_case_metadata w case_year case_name md_init t = (Raised e, s1, t1) ->
  scrape w case_year case_name full_transcript s t = (Raised e, s, t1).
Proof. intros H. unfold scrape, call, bind. rewrite H. reflexivity. Qed.

Lemma scrape_no_url w case_year case_name full_transcript s t md s1 t1 :
  get_case_metadata w case_year case_name md_init t = (Ok md, s1, t1) ->
  value_truthy (dict_get md "oral_argument_url") = false ->
  scrape w case_year case_name full_transcript s t = (Ok tt, s, t1).
Proof. intros H Hu. unfold scrape, call, bind. rewrite H, Hu. reflexivity. Qed.

Lemma scrape_no_blocks w case_year case_name full_transcript s t md s1 t1 u pp :
  get_case_metadata w case_year case_name md_init t = (Ok md, s1, t1) ->
  dict_get md "oral_argument_url" = VStr u ->
  PyStr.truthy u = true ->
  player w u = Some pp ->
  pp_polls pp 0 = [] -> pp_polls pp 1 = [] -> pp_polls pp 2 = [] ->
  scrape w case_year case_name full_transcript s t =
    (Raised NoBlocks, s,
     t1 ++ [Get (VStr u); Find block_selector; Find block_selector; Find block_selector]).
Proof.
  intros H Hu Ht Hp H0 H1 H2. unfold scrape, call. unfold bind at 1. rewrite H, Hu.
  unfold value_truthy. rewrite Ht. simpl negb. cbv iota.
  unfold driver_get, player_of. rewrite Hp.
  unfold bind at 1 2, emit, answer, ret. cbv beta iota.
  cbn [negb]. cbv beta iota. unfold bind. rewrite (poll_blocks_empty pp s _ H0 H1 H2).
  rewrite <- app_assoc. reflexivity.
Qed.

Lemma metadata_log_from_open w case_year case_name r s1 t1 :
  get_case_metadata w case_year case_name md_init [Open] = (r, s1, t1) ->
  exists d, t1 = Open :: d /\ Forall (fun e => is_query e = true) d.
Proof.
  intros H. destruct (get_case_metadata_log w case_year case_name md_init [Open])
    as (d & Hd & Hq).
  rewrite H in Hd. simpl in Hd. exists d. split; assumption.
Qed.

(** ** Releasing the session *)

(** C8.  Whenever the session is created the function returns normally
    and the last thing it does is release it: the log is the creation of
    the session, then events that neither create nor release one, then the
    single call of [driver.quit()]. *)
Theorem session_always_released :
  forall w case_year case_name full_transcript,
    session w = true ->
    exists d,
      get_transcript_with_selenium w case_year case_name full_transcript =
        (Ok tt, Open :: d ++ [Quit]) /\
      Forall (fun e => in_session e = true) d.
Proof.
  intros w case_year case_name full_transcript Hs.
  destruct (scrape_log w case_year case_name full_transcript tr_init [Open])
    as (d & Hd & Hin).
  destruct (scrape w case_year case_name full_transcript tr_init [Open])
    as [[r s'] t'] eqn:Hrun.
  simpl in Hd. subst t'. exists d. split; [|exact Hin].
  apply (get_transcript_of_scrape _ _ _ _ _ _ _ Hs Hrun).
Qed.

Lemma session_always_released_witness :
  exists d,
    get_transcript_with_selenium
      (Sample.site [Sample.moore; Sample.acheson] Sample.details
                   (Sample.late Sample.every_third))
      "2023" "Acheson" true = (Ok tt, Open :: d ++ [Quit]) /\
    Forall (fun e => in_session e = true) d.
Proof.
  apply (session_always_released
           (Sample.site [Sample.moore; Sample.acheson] Sample.details
                        (Sample.late Sample.every_third))
           "2023" "Acheson" true).
  reflexivity.
Defined.

(** ** No oral-argument URL *)

Lemma early_return w case_year case_name full_transcript md s1 t1 :
  session w = true ->
  get_case_metadata w case_year case_name md_init [Open] = (Ok md, s1, t1) ->
  value_truthy (dict_get md "oral_argument_url") = false ->
  exists d,
    scrape w case_year case_name full_transcript tr_init [Open] = (Ok tt, tr_init, Open :: d) /\
    get_transcript_with_selenium w case_year case_name full_transcript =
      (Ok tt, Open :: d ++ [Quit]) /\
    Forall (fun e => is_query e = true) d.
Proof.
  intros Hs Hmd Hu.
  destruct (metadata_log_from_open _ _ _ _ _ _ Hmd) as (d & -> & Hq).
  pose proof (scrape_no_url w case_year case_name full_transcript tr_init _ _ _ _ Hmd Hu)
    as Hrun.
  exists d. split; [exact Hrun|]. split; [|exact Hq].
  apply (get_transcript_of_scrape _ _ _ _ _ _ _ Hs Hrun).
Qed.

Lemma chosen_target_metadata w case_year case_name items pre c post title description dp t :
  listing w (listing_url case_year) = Some items ->
  items = pre ++ c :: post ->
  Forall (fun x => entry_matches case_name x = false) pre ->
  entry_matches case_name c = true ->
  ci_title c = Some title ->
  ci_description c = Some description ->
  detail w (ci_href c) = Some dp ->
  exists md s' t',
    get_case_metadata w case_year case_name md_init t = (Ok md, s', t') /\
    forall k, k ∉ timeline_keys dp ->
      md !! k = details_update dp
                  (<["description" := VStr (PyStr.strip description)]>
                     (<["url" := value_of_attr (ci_href c)]>
                        (<["title" := VStr (PyStr.strip title)]> ∅))) !! k.
Proof.
  intros Hl -> Hpre Hc Ht Hd Hp.
  destruct (get_case_metadata_target w case_year case_name _ md_init t Hl) as [t1 Hrun].
  destruct (find_target_first case_name pre c post md_init t1 Hpre Hc) as [t2 Hf].
  rewrite Hf in Hrun. rewrite Hrun.
  apply (extract_target_run w c title description dp t2 Ht Hd Hp).
Qed.

(** C4.  The oral-argument lookup queries the primary selector, and the
    looser one exactly when the primary lookup fails; the field gets the
    first answer, and [None] when both fail.  When the mapping returned by
    the metadata extractor has no usable oral-argument URL, the transcript
    extractor returns normally after the metadata lookups alone: it opens
    no player page, runs no block script and writes no file.  In
    particular this is what happens for a chosen case whose detail page
    answers neither selector. *)
Theorem oral_url_fallback :
  (forall dp s t,
      get_oral_argument_url dp s t =
        (Ok tt, {| metadata := <["oral_argument_url" := oral_value dp]> (metadata s);
                   header := header s |},
         t ++ Find oral_primary_selector ::
              match dp_oral_primary dp with
              | Some _ => []
              | None => [Find oral_looser_selector]
              end)) /\
  (forall dp,
      oral_value dp =
        match dp_oral_primary dp, dp_oral_looser dp with
        | Some a, _ => value_of_attr a
        | None, Some a => value_of_attr a
        | None, None => VNone
        end) /\
  (forall w case_year case_name full_transcript md s1 t1,
      session w = true ->
      get_case_metadata w case_year case_name md_init [Open] = (Ok md, s1, t1) ->
      value_truthy (dict_get md "oral_argument_url") = false ->
      exists d,
        scrape w case_year case_name full_transcript tr_init [Open] =
          (Ok tt, tr_init, Open :: d) /\
        get_transcript_with_selenium w case_year case_name full_transcript =
          (Ok tt, Open :: d ++ [Quit]) /\
        Forall (fun e => is_query e = true) d) /\
  (forall w case_year case_name full_transcript items pre c post title description dp,
      session w = true ->
      listing w (listing_url case_year) = Some items ->
      items = pre ++ c :: post ->
      Forall (fun x => entry_matches case_name x = false) pre ->
      entry_matches case_name c = true ->
      ci_title c = Some title ->
      ci_description c = Some description ->
      detail w (ci_href c) = Some dp ->
      dp_oral_primary dp = None ->
      dp_oral_looser dp = None ->
      "oral_argument_url" ∉ timeline_keys dp ->
      exists d,
        get_transcript_with_selenium w case_year case_name full_transcript =
          (Ok tt, Open :: d ++ [Quit]) /\
        Forall (fun e => is_query e = true) d /\
        no_output (Open :: d ++ [Quit])).
Proof.
  split; [exact get_oral_argument_url_run|].
  split; [intros dp; unfold oral_value;
          destruct (dp_oral_primary dp), (dp_oral_looser dp); reflexivity|].
  split; [exact early_return|].
  intros w case_year case_name full_transcript items pre c post title description dp
         Hs Hl Hi Hpre Hc Ht Hd Hp H1 H2 Hk.
  destruct (chosen_target_metadata w case_year case_name items pre c post title
              description dp [Open] Hl Hi Hpre Hc Ht Hd Hp)
    as (md & s' & t' & Hmd & Hframe).
  assert (Hu : value_truthy (dict_get md "oral_argument_url") = false).
  { unfold dict_get. rewrite (Hframe _ Hk). unfold details_update.
    rewrite lookup_insert_eq. unfold oral_value. rewrite H1, H2. reflexivity. }
  destruct (early_return w case_year case_name full_transcript md s' t' Hs Hmd Hu)
    as (d & _ & Hrun & Hq).
  exists d. split; [exact Hrun|]. split; [exact Hq|].
  unfold no_output. constructor; [reflexivity|].
  apply Forall_app. split; [|repeat constructor].
  eapply Forall_impl; [exact Hq|]. intros [] He; simpl in *; congruence.
Qed.

Lemma oral_url_fallback_witness :
  exists d,
    get_transcript_with_selenium
      (Sample.site [Sample.moore; Sample.acheson] Sample.details_silent
                   (Sample.late Sample.every_third))
      "2023" "Acheson" true = (Ok tt, Open :: d ++ [Quit]) /\
    Forall (fun e => is_query e = true) d /\
    no_output (Open :: d ++ [Quit]).
Proof.
  apply (proj2 (proj2 (proj2 oral_url_fallback))
           (Sample.site [Sample.moore; Sample.acheson] Sample.details_silent
                        (Sample.late Sample.every_third))
           "2023" "Acheson" true [Sample.moore; Sample.acheson]
           [Sample.moore] Sample.acheson []
           " Acheson Hotels, LLC v. Laufer " "A case about standing."
           Sample.details_silent).
  - reflexivity.
  - reflexivity.
  - reflexivity.
  - repeat constructor.
  - reflexivity.
  - reflexivity.
  - reflexivity.
  - reflexivity.
  - reflexivity.
  - reflexivity.
  - apply (bool_decide_unpack _). vm_compute. exact I.
Defined.

(** ** Fatal failures *)

(** C7.  When no entry of the listing matches, and when the player page
    shows no block at any of the three polls, the exception raised inside
    the [try] ends the run: the function releases the session and returns,
    having made only page loads and lookups -- no block is processed and no
    file is written.  When the session cannot be created the exception
    leaves the function, and nothing was opened, released or written. *)
Theorem run_level_failures_abort :
  (forall w case_year case_name full_transcript items,
      session w = true ->
      listing w (listing_url case_year) = Some items ->
      Forall (fun x => entry_matches case_name x = false) items ->
      exists d,
        fst (fst (scrape w case_year case_name full_transcript tr_init [Open])) =
          Raised (NotFound case_name) /\
        get_transcript_with_selenium w case_year case_name full_transcript =
          (Ok tt, Open :: d ++ [Quit]) /\
        Forall (fun e => is_query e = true) d /\
        no_output (Open :: d ++ [Quit])) /\
  (forall w case_year case_name full_transcript md s1 t1 u pp,
      session w = true ->
      get_case_metadata w case_year case_name md_init [Open] = (Ok md, s1, t1) ->
      dict_get md "oral_argument_url" = VStr u ->
      PyStr.truthy u = true ->
      player w u = Some pp ->
      pp_polls pp 0 = [] -> pp_polls pp 1 = [] -> pp_polls pp 2 = [] ->
      exists d,
        fst (fst (scrape w case_year case_name full_transcript tr_init [Open])) =
          Raised NoBlocks /\
        get_transcript_with_selenium w case_year case_name full_transcript =
          (Ok tt, Open :: d ++ [Quit]) /\
        Forall (fun e => is_query e = true) d /\
        no_output (Open :: d ++ [Quit])) /\
  (forall w case_year case_name full_transcript,
      session w = false ->
      get_transcript_with_selenium w case_year case_name full_transcript =
        (Raised SessionNotCreated, [])).
Proof.
  assert (Hout : forall d, Forall (fun e => is_query e = true) d ->
                           no_output (Open :: d ++ [Quit])).
  { intros d Hq. unfold no_output. constructor; [reflexivity|].
    apply Forall_app. split; [|repeat constructor].
    eapply Forall_impl; [exact Hq|]. intros [] He; simpl in *; congruence. }
  split; [|split].
  - intros w case_year case_name full_transcript items Hs Hl Hall.
    destruct (get_case_metadata_target w case_year case_name _ md_init [Open] Hl)
      as [t1 Hrun].
    destruct (find_target_none case_name items md_init t1 Hall) as [t2 Hf].
    rewrite Hf in Hrun.
    destruct (metadata_log_from_open _ _ _ _ _ _ Hrun) as (d & -> & Hq).
    pose proof (scrape_metadata_raised w case_year case_name full_transcript
                  tr_init _ _ _ _ Hrun) as Hscrape.
    exists d. split; [rewrite Hscrape; reflexivity|].
    split; [apply (get_transcript_of_scrape _ _ _ _ _ _ _ Hs Hscrape)|].
    split; [exact Hq | apply Hout; exact Hq].
  - intros w case_year case_name full_transcript md s1 t1 u pp Hs Hmd Hu Ht Hp H0 H1 H2.
    destruct (metadata_log_from_open _ _ _ _ _ _ Hmd) as (d & -> & Hq).
    pose proof (scrape_no_blocks w case_year case_name full_transcript tr_init _ _ _ _ _ _
                  Hmd Hu Ht Hp H0 H1 H2) as Hscrape.
    assert (Hq' : Forall (fun e => is_query e = true)
                    (d ++ [Get (VStr u); Find block_selector; Find block_selector;
                           Find block_selector])).
    { apply Forall_app. split; [exact Hq | repeat constructor]. }
    eexists. split; [rewrite Hscrape; reflexivity|].
    split; [apply (get_transcript_of_scrape _ _ _ _ _ _ _ Hs Hscrape)|].
    split; [exact Hq' | apply Hout; exact Hq'].
  - intros w case_year case_name full_transcript Hs.
    unfold get_transcript_with_selenium. rewrite Hs. reflexivity.
Qed.

Lemma run_level_failures_abort_witness :
  exists d,
    fst (fst (scrape (Sample.site [Sample.moore; Sample.acheson] Sample.details Sample.never)
                     "2023" "Dobbs" true tr_init [Open])) = Raised (NotFound "Dobbs") /\
    get_transcript_with_selenium
      (Sample.site [Sample.moore; Sample.acheson] Sample.details Sample.never)
      "2023" "Dobbs" true = (Ok tt, Open :: d ++ [Quit]) /\
    Forall (fun e => is_query e = true) d /\
    no_output (Open :: d ++ [Quit]).
Proof.
  apply (proj1 run_level_failures_abort
           (Sample.site [Sample.moore; Sample.acheson] Sample.details Sample.never)
           "2023" "Dobbs" true [Sample.moore; Sample.acheson]).
  - reflexivity.
  - reflexivity.
  - repeat constructor.
Defined.

(** ** A complete run *)

(** On the sample site the full run writes one file, named from the title,
    holding the six entries; the argued date is [None] since the date of
    the Argued item cannot be read. *)
Example sample_run_writes_file :
  match filter (fun e => is_dump e = true)
          (snd (get_transcript_with_selenium
                  (Sample.site [Sample.moore; Sample.acheson] Sample.details
                               (Sample.late Sample.every_third))
                  "2023" "Acheson" true)) with
  | [Dump filename doc] =>
      filename = "Acheson_Hotels_LLC_v_Laufer_transcript_full.json" /\
      doc_case_name doc = VStr "Acheson Hotels, LLC v. Laufer" /\
      doc_argument_date doc = VNone /\
      length (doc_transcript doc) = 6 /\
      doc_transcript_mode doc = "FULL"
  | _ => False
  end.
Proof. vm_compute. repeat split. Qed.

(** In sample mode the same run keeps the first three blocks. *)
Example sample_run_test_mode :
  match filter (fun e => is_dump e = true)
          (snd (get_transcript_with_selenium
                  (Sample.site [Sample.moore; Sample.acheson] Sample.details
                               (Sample.late Sample.every_third))
                  "2023" "Acheson" false)) with
  | [Dump filename doc] =>
      filename = "Acheson_Hotels_LLC_v_Laufer_transcript_test.json" /\
      map text (doc_transcript doc) =
        ["We will hear argument."; "Mr. Unikowsky."; "You may proceed."] /\
      doc_transcript_mode doc = "TEST (first 3 blocks)"
  | _ => False
  end.
Proof. vm_compute. repeat split. Qed.

(** * The rest of the code *)

(** ** Python string operations *)

Lemma lower_char_idem c : PyStr.lower_char (PyStr.lower_char c) = PyStr.lower_char c.
Proof. destruct c as [[] [] [] [] [] [] [] []]; reflexivity. Qed.

Lemma is_space_lower_char c : PyStr.is_space (PyStr.lower_char c) = PyStr.is_space c.
Proof. destruct c as [[] [] [] [] [] [] [] []]; reflexivity. Qed.

Lemma lower_idem s : PyStr.lower (PyStr.lower s) = PyStr.lower s.
Proof. induction s as [|c r IH]; simpl; [reflexivity|]. rewrite lower_char_idem, IH. reflexivity. Qed.

Lemma split_head_nonempty c r :
  PyStr.is_space c = false -> PyStr.split (String c r) <> [].
Proof.
  intros Hc. simpl. rewrite Hc. destruct r as [|d r']; [discriminate|].
  destruct (PyStr.is_space d); [discriminate|].
  destruct (PyStr.split (String d r')); discriminate.
Qed.

Lemma split_lower s : PyStr.split (PyStr.lower s) = map PyStr.lower (PyStr.split s).
Proof.
  induction s as [|c r IH]; [reflexivity|].
  cbn [PyStr.lower]. cbn [PyStr.split]. fold PyStr.split.
  rewrite is_space_lower_char.
  destruct (PyStr.is_space c); [exact IH|].
  destruct r as [|d r']; [reflexivity|].
  cbn [PyStr.lower] in *. rewrite is_space_lower_char.
  destruct (PyStr.is_space d).
  - rewrite IH. reflexivity.
  - rewrite IH. destruct (PyStr.split (String d r')); reflexivity.
Qed.

Lemma split_append_space a c b :
  PyStr.is_space c = true ->
  PyStr.split (String.app a (String c b)) = PyStr.split a ++ PyStr.split b.
Proof.
  intros Hc. induction a as [|x a IH].
  - change (String.app EmptyString (String c b)) with (String c b).
    cbn [PyStr.split]. fold PyStr.split. rewrite Hc. reflexivity.
  - destruct a as [|d a'].
    + change (String.app (String x EmptyString) (String c b)) with (String x (String c b)).
      change (String.app EmptyString (String c b)) with (String c b) in IH.
      cbn [PyStr.split]. fold PyStr.split.
      cbn [PyStr.split] in IH. fold PyStr.split in IH. rewrite Hc in *.
      destruct (PyStr.is_space x); [exact IH | reflexivity].
    + change (String.app (String x (String d a')) (String c b))
        with (String x (String d (String.app a' (String c b)))).
      change (String.app (String d a') (String c b))
        with (String d (String.app a' (String c b))) in IH.
      cbn [PyStr.split]. fold PyStr.split.
      cbn [PyStr.split] in IH. fold PyStr.split in IH.
      destruct (PyStr.is_space x) eqn:Hx; [exact IH|].
      destruct (PyStr.is_space d) eqn:Hd.
      * rewrite IH. reflexivity.
      * pose proof (split_head_nonempty d a' Hd) as Hne.
        cbn [PyStr.split] in Hne. fold PyStr.split in Hne. rewrite Hd in Hne.
        rewrite IH.
        match goal with
        | |- context [match ?l ++ _ with _ => _ end] => destruct l; [congruence | reflexivity]
        end.
Qed.

Lemma rstrip_unfold c r :
  PyStr.rstrip (String c r) =
    match PyStr.rstrip r with
    | EmptyString => if PyStr.is_space c then EmptyString else String c EmptyString
    | String d r' => String c (String d r')
    end.
Proof. reflexivity. Qed.

Lemma rstrip_idem s : PyStr.rstrip (PyStr.rstrip s) = PyStr.rstrip s.
Proof.
  induction s as [|c r IH]; [reflexivity|].
  rewrite rstrip_unfold. destruct (PyStr.rstrip r) as [|d r'] eqn:Hr.
  - destruct (PyStr.is_space c) eqn:Hc; [reflexivity|].
    rewrite rstrip_unfold. simpl. rewrite Hc. reflexivity.
  - rewrite rstrip_unfold, IH. reflexivity.
Qed.

Lemma rstrip_cons c r :
  PyStr.is_space c = false -> PyStr.rstrip (String c r) = String c (PyStr.rstrip r).
Proof. intros Hc. simpl. rewrite Hc. destruct (PyStr.rstrip r); reflexivity. Qed.

Lemma lstrip_cases s :
  PyStr.lstrip s = EmptyString \/
  exists c r, PyStr.lstrip s = String c r /\ PyStr.is_space c = false.
Proof.
  induction s as [|c r IH]; [left; reflexivity|].
  simpl. destruct (PyStr.is_space c) eqn:Hc; [exact IH|]. right. eauto.
Qed.

Lemma strip_idem s : PyStr.strip (PyStr.strip s) = PyStr.strip s.
Proof.
  unfold PyStr.strip. destruct (lstrip_cases s) as [->|(c & r & -> & Hc)]; [reflexivity|].
  rewrite (rstrip_cons c r Hc). simpl PyStr.lstrip. rewrite Hc.
  rewrite (rstrip_cons c _ Hc), rstrip_idem. reflexivity.
Qed.

Lemma occurs_app c a b : occurs c (String.app a b) = occurs c a || occurs c b.
Proof. induction a as [|x a IH]; simpl; [reflexivity|]. rewrite IH, orb_assoc. reflexivity. Qed.

Lemma replace_char_gone c new s :
  occurs c new = false ->
  occurs c (PyStr.replace (String c EmptyString) new s) = false.
Proof.
  intros Hn. unfold PyStr.replace. induction s as [|x r IH]; [reflexivity|].
  cbn [PyStr.replace_go PyStr.startswith String.length Nat.sub].
  destruct (Ascii.eqb c x) eqn:Hx.
  - destruct r; rewrite occurs_app, Hn, IH; reflexivity.
  - simpl. rewrite Hx, IH. reflexivity.
Qed.

Lemma replace_char_other c d new s :
  Ascii.eqb d c = false -> occurs d new = false ->
  occurs d (PyStr.replace (String c EmptyString) new s) = occurs d s.
Proof.
  intros Hdc Hn. unfold PyStr.replace. induction s as [|x r IH]; [reflexivity|].
  cbn [PyStr.replace_go PyStr.startswith String.length Nat.sub].
  destruct (Ascii.eqb c x) eqn:Hx.
  - apply Ascii.eqb_eq in Hx. subst x.
    destruct r; rewrite occurs_app, Hn, IH; simpl; rewrite Hdc; reflexivity.
  - simpl. rewrite IH. reflexivity.
Qed.

Lemma replace_char_same c s :
  PyStr.replace (String c EmptyString) (String c EmptyString) s = s.
Proof.
  unfold PyStr.replace. induction s as [|x r IH]; [reflexivity|].
  cbn [PyStr.replace_go PyStr.startswith String.length Nat.sub].
  destruct (Ascii.eqb c x) eqn:Hx.
  - apply Ascii.eqb_eq in Hx. subst x.
    change (String.app (String c EmptyString) ?x) with (String c x).
    rewrite IH. reflexivity.
  - rewrite IH. reflexivity.
Qed.

Lemma split_blank s : all_space s = true -> PyStr.split s = [].
Proof.
  induction s as [|c r IH]; [reflexivity|]. simpl.
  intros H. apply andb_true_iff in H. destruct H as [Hc Hr].
  rewrite Hc. apply IH. exact Hr.
Qed.

(** ** The matcher of line 55 *)

(** X1.  A fragment made of whitespace only (the empty one included) has
    no token: no entry matches it and, on a listing that loads, the
    extractor raises the not-found exception whatever the listing holds. *)
Theorem blank_fragment_not_found :
  forall w case_year case_name items s t,
    all_space case_name = true ->
    listing w (listing_url case_year) = Some items ->
    (forall c, entry_matches case_name c = false) /\
    exists t', get_case_metadata w case_year case_name s t =
               (Raised (NotFound case_name), s, t').
Proof.
  intros w case_year case_name items s t Hb Hl.
  assert (Hno : forall c, entry_matches case_name c = false).
  { intros c. unfold entry_matches, title_matches. rewrite (split_blank _ Hb).
    destruct (ci_title c); reflexivity. }
  split; [exact Hno|].
  destruct (get_case_metadata_target w case_year case_name _ s t Hl) as [t1 Hrun].
  assert (Hall : Forall (fun x => entry_matches case_name x = false) items).
  { apply Forall_forall. intros x _. apply Hno. }
  destruct (find_target_none case_name items s t1 Hall) as [t2 Hf].
  rewrite Hrun, Hf. exists t2. reflexivity.
Qed.

Lemma blank_fragment_not_found_witness :
  (forall c, entry_matches "  " c = false) /\
  exists t', get_case_metadata
               (Sample.site [Sample.moore; Sample.acheson] Sample.details Sample.never)
               "2023" "  " md_init [] = (Raised (NotFound "  "), md_init, t').
Proof.
  apply (blank_fragment_not_found
           (Sample.site [Sample.moore; Sample.acheson] Sample.details Sample.never)
           "2023" "  " [Sample.moore; Sample.acheson] md_init []).
  - reflexivity.
  - reflexivity.
Defined.

Lemma existsb_map_lower (f : string -> bool) ws :
  existsb f (map PyStr.lower ws) = existsb (fun w => f (PyStr.lower w)) ws.
Proof. induction ws as [|w ws IH]; simpl; [reflexivity|]. rewrite IH. reflexivity. Qed.

(** X2.  Matching ignores case on both sides: lower-casing the fragment
    or the title changes nothing. *)
Theorem matching_ignores_case :
  forall case_name title,
    title_matches (PyStr.lower case_name) title = title_matches case_name title /\
    title_matches case_name (PyStr.lower title) = title_matches case_name title.
Proof.
  intros case_name title. unfold title_matches. split.
  - rewrite split_lower, existsb_map_lower.
    induction (PyStr.split case_name) as [|w ws IH]; simpl; [reflexivity|].
    rewrite lower_idem, IH. reflexivity.
  - rewrite lower_idem. reflexivity.
Qed.

(** X3.  A fragment of several words matches as soon as one of its words
    does: across a whitespace character the match is the disjunction of
    the matches of the two parts. *)
Theorem any_token_suffices :
  forall a c b title,
    PyStr.is_space c = true ->
    title_matches (String.app a (String c b)) title =
      title_matches a title || title_matches b title.
Proof.
  intros a c b title Hc. unfold title_matches.
  rewrite (split_append_space a c b Hc). apply existsb_app.
Qed.

Lemma any_token_suffices_witness :
  title_matches (String.app "Dobbs" (String " " "Hotels")) "Acheson Hotels, LLC v. Laufer" =
    title_matches "Dobbs" "Acheson Hotels, LLC v. Laufer" ||
    title_matches "Hotels" "Acheson Hotels, LLC v. Laufer".
Proof.
  apply (any_token_suffices "Dobbs" " " "Hotels" "Acheson Hotels, LLC v. Laufer").
  reflexivity.
Defined.

(** ** The metadata extractor outside its [try] groups *)

Lemma get_details_decompose dp s t :
  exists t1,
    get_details dp s t =
      get_timeline dp {| metadata := details_update dp (metadata s); header := header s |} t1.
Proof.
  unfold get_details.
  step_with get_parties_run. step_with get_case_details_run.
  step_with get_advocates_run. step_with get_facts_run.
  step_with get_question_run. step_with get_conclusion_run.
  erewrite bind_ok by apply get_oral_argument_url_run.
  eexists. reflexivity.
Qed.

Lemma extract_target_decompose w c title description dp t :
  ci_title c = Some title ->
  ci_description c = Some description ->
  detail w (ci_href c) = Some dp ->
  exists t1,
    extract_target w c md_init t =
      match get_timeline dp
              {| metadata := details_update dp
                               (leading_mapping title (ci_href c) description);
                 header := None |} t1 with
      | (_, s', t') => (Ok (metadata s'), s', t')
      end.
Proof.
  intros Ht Hd Hp.
  unfold extract_target, get_specific_metadata, driver_get, find_element, set_item.
  rewrite Ht, Hd, Hp.
  cbv [bind ret raise emit gets modify answer try_ md_init metadata header].
  match goal with
  | |- context [get_details dp ?s ?t] =>
      destruct (get_details_decompose dp s t) as [t1 Hdec]; rewrite Hdec
  end.
  exists t1. cbn [metadata header]. unfold leading_mapping.
  match goal with
  | |- context [get_timeline dp ?s ?t] =>
      destruct (get_timeline_run dp s t) as (s' & t' & Hrun & _); rewrite Hrun
  end.
  reflexivity.
Qed.

Lemma get_timeline_some dp tl s t :
  dp_timeline dp = Some tl ->
  exists t1,
    get_timeline dp s t =
      match for_ (tl_items tl) timeline_date
              {| metadata := <["citation" := citation_value tl]> (metadata s);
                 header := header s |} t1 with
      | (_, s', t') => (Ok tt, s', t')
      end.
Proof.
  intros Hdp. unfold get_timeline, try_, find_element, find_elements. rewrite Hdp.
  unfold bind at 1 2 3. simpl. unfold bind at 1.
  destruct (get_citation_run tl s (t ++ [Find "div.cell:has(div.subcell)"])) as [t1 Hc].
  rewrite Hc. unfold bind, emit, ret. cbn beta iota.
  exists (t1 ++ [Find "div.subcell.ng-binding.ng-scope"]). unfold citation_value.
  match goal with
  | |- context [for_ ?xs ?f ?s ?t] => destruct (for_ xs f s t) as [[[[]|e] s'] t']
  end; reflexivity.
Qed.

Lemma details_update_other dp (m : gmap string value) k :
  k ∉ group_keys -> details_update dp m !! k = m !! k.
Proof.
  intros Hk. unfold group_keys in Hk. rewrite !not_elem_of_cons in Hk.
  destruct Hk as (H1 & H2 & H3 & H4 & H5 & H6 & H7 & _).
  unfold details_update.
  rewrite lookup_insert_ne by congruence.
  rewrite !lookup_set_opt_ne by congruence. reflexivity.
Qed.

Lemma leading_mapping_keys title url description k :
  is_Some (leading_mapping title url description !! k) -> k ∈ leading_keys.
Proof.
  unfold leading_mapping, leading_keys. intros [v Hv].
  destruct (decide (k = "description")) as [->|H1]; [set_solver|].
  rewrite lookup_insert_ne in Hv by congruence.
  destruct (decide (k = "url")) as [->|H2]; [set_solver|].
  rewrite lookup_insert_ne in Hv by congruence.
  destruct (decide (k = "title")) as [->|H3]; [set_solver|].
  rewrite lookup_insert_ne in Hv by congruence.
  rewrite lookup_empty in Hv. discriminate.
Qed.

Lemma extract_target_no_description w c title t :
  ci_title c = Some title ->
  ci_description c = None ->
  exists s' t',
    extract_target w c md_init t =
      (Ok (<["url" := value_of_attr (ci_href c)]>
             (<["title" := VStr (PyStr.strip title)]> ∅)), s', t').
Proof.
  intros Ht Hd.
  unfold extract_target, get_specific_metadata, driver_get, find_element, set_item.
  rewrite Ht, Hd.
  cbv [bind ret raise emit gets modify answer try_ md_init metadata header].
  do 2 eexists. reflexivity.
Qed.

Lemma extract_target_no_detail w c title description t :
  ci_title c = Some title ->
  ci_description c = Some description ->
  detail w (ci_href c) = None ->
  exists s' t',
    extract_target w c md_init t =
      (Ok (leading_mapping title (ci_href c) description), s', t').
Proof.
  intros Ht Hd Hp.
  unfold extract_target, get_specific_metadata, driver_get, find_element, set_item.
  rewrite Ht, Hd, Hp.
  cbv [bind ret raise emit gets modify answer try_ md_init metadata header].
  do 2 eexists. reflexivity.
Qed.

(** X4.  When the description of the chosen entry cannot be read the
    extractor returns the title and the URL alone; when the detail page
    does not open it returns title, URL and description alone.  In both
    cases it returns normally. *)
Theorem early_failure_partial_mapping :
  (forall w c title t,
      ci_title c = Some title ->
      ci_description c = None ->
      exists s' t',
        extract_target w c md_init t =
          (Ok (<["url" := value_of_attr (ci_href c)]>
                 (<["title" := VStr (PyStr.strip title)]> ∅)), s', t')) /\
  (forall w c title description t,
      ci_title c = Some title ->
      ci_description c = Some description ->
      detail w (ci_href c) = None ->
      exists s' t',
        extract_target w c md_init t =
          (Ok (leading_mapping title (ci_href c) description), s', t')).
Proof.
  split.
  - intros w c title t. apply extract_target_no_description.
  - intros w c title description t. apply extract_target_no_detail.
Qed.

Lemma early_failure_partial_mapping_witness :
  exists s' t',
    extract_target (Sample.site [Sample.moore; Sample.acheson_bare] Sample.details Sample.never)
                   Sample.acheson_bare md_init [] =
      (Ok (<["url" := VStr "https://www.oyez.org/cases/2023/22-429"]>
             (<["title" := VStr (PyStr.strip " Acheson Hotels, LLC v. Laufer ")]> ∅)),
       s', t').
Proof.
  apply (proj1 early_failure_partial_mapping
           (Sample.site [Sample.moore; Sample.acheson_bare] Sample.details Sample.never)
           Sample.acheson_bare " Acheson Hotels, LLC v. Laufer " []).
  - reflexivity.
  - reflexivity.
Defined.

Lemma details_update_keys dp (m : gmap string value) k :
  is_Some (details_update dp m !! k) -> k ∈ group_keys \/ is_Some (m !! k).
Proof.
  intros H. destruct (decide (k ∈ group_keys)) as [Hin|Hout]; [left; exact Hin|].
  right. rewrite details_update_other in H by exact Hout. exact H.
Qed.

(** X5.  Whatever the pages answer, the keys of the returned mapping are
    among title, url, description, the seven keys of the groups, and the
    keys of the timeline pass of the detail page that was opened
    (citation and the headers read there).  In particular docket_no,
    decided_by and lower_court are never set by their own group. *)
Theorem metadata_keys :
  forall w c t md s' t' k,
    extract_target w c md_init t = (Ok md, s', t') ->
    is_Some (md !! k) ->
    k ∈ leading_keys ++ group_keys \/
    exists dp, detail w (ci_href c) = Some dp /\ k ∈ timeline_keys dp.
Proof.
  intros w c t md s' t' k Hrun Hk.
  destruct (ci_title c) as [title|] eqn:Ht.
  2:{ revert Hrun.
      unfold extract_target, get_specific_metadata, driver_get, find_element, set_item.
      rewrite Ht.
      cbv [bind ret raise emit gets modify answer try_ md_init metadata header].
      intros [= <- _ _]. rewrite lookup_empty in Hk. destruct Hk as [? ?]. discriminate. }
  destruct (ci_description c) as [description|] eqn:Hd.
  2:{ destruct (extract_target_no_description w c title t Ht Hd) as (s1 & t1 & H1).
      rewrite H1 in Hrun. injection Hrun as <- _ _.
      left. apply elem_of_app. left. unfold leading_keys.
      destruct Hk as [v Hv].
      destruct (decide (k = "url")) as [->|H2]; [set_solver|].
      rewrite lookup_insert_ne in Hv by congruence.
      destruct (decide (k = "title")) as [->|H3]; [set_solver|].
      rewrite lookup_insert_ne in Hv by congruence.
      rewrite lookup_empty in Hv. discriminate. }
  destruct (detail w (ci_href c)) as [dp|] eqn:Hp.
  2:{ destruct (extract_target_no_detail w c title description t Ht Hd Hp)
        as (s1 & t1 & H1).
      rewrite H1 in Hrun. injection Hrun as <- _ _.
      left. apply elem_of_app. left. eapply leading_mapping_keys. exact Hk. }
  destruct (decide (k ∈ timeline_keys dp)) as [Hin|Hout]; [right; eauto|].
  left.
  destruct (extract_target_run w c title description dp t Ht Hd Hp)
    as (md1 & s1 & t1 & H1 & Hframe).
  rewrite H1 in Hrun. injection Hrun as <- _ _.
  rewrite (Hframe k Hout) in Hk.
  apply details_update_keys in Hk. apply elem_of_app.
  destruct Hk as [Hg|Hl]; [right; exact Hg|].
  left. eapply (leading_mapping_keys title (ci_href c) description). exact Hl.
Qed.

Lemma metadata_keys_witness :
  match extract_target
          (Sample.site [Sample.moore; Sample.acheson] Sample.details Sample.never)
          Sample.acheson md_init [] with
  | (Ok md, _, _) =>
      md !! "docket_no" = None /\ md !! "decided_by" = None /\ md !! "lower_court" = None
  | (Raised _, _, _) => True
  end.
Proof.
  destruct (extract_target
              (Sample.site [Sample.moore; Sample.acheson] Sample.details Sample.never)
              Sample.acheson md_init []) as [[[md|e] s'] t'] eqn:Hrun; [|exact I].
  assert (Hno : forall k, k ∉ leading_keys ++ group_keys ->
                          k ∉ timeline_keys Sample.details -> md !! k = None).
  { intros k H1 H2. destruct (md !! k) eqn:Hk; [|reflexivity]. exfalso.
    destruct (metadata_keys _ _ _ _ _ _ k Hrun) as [Hin|(dp & Hdp & Hin)].
    - rewrite Hk. eauto.
    - exact (H1 Hin).
    - injection Hdp as <-. exact (H2 Hin). }
  repeat split; apply Hno; apply (bool_decide_unpack _); vm_compute; exact I.
Defined.

(** X6.  Once the detail page is open, title, url and description hold
    the stripped title, the link's href and the stripped description of
    the chosen entry, unless a timeline header spells the key. *)
Theorem leading_fields_recorded :
  forall w c title description dp t,
    ci_title c = Some title ->
    ci_description c = Some description ->
    detail w (ci_href c) = Some dp ->
    exists md s' t',
      extract_target w c md_init t = (Ok md, s', t') /\
      ("title" ∉ timeline_keys dp -> md !! "title" = Some (VStr (PyStr.strip title))) /\
      ("url" ∉ timeline_keys dp -> md !! "url" = Some (value_of_attr (ci_href c))) /\
      ("description" ∉ timeline_keys dp ->
       md !! "description" = Some (VStr (PyStr.strip description))).
Proof.
  intros w c title description dp t Ht Hd Hp.
  destruct (extract_target_run w c title description dp t Ht Hd Hp)
    as (md & s' & t' & Hrun & Hframe).
  exists md, s', t'. split; [exact Hrun|].
  repeat split; intros Hk; rewrite (Hframe _ Hk);
    (rewrite details_update_other
       by (apply (bool_decide_unpack _); vm_compute; exact I));
    repeat (rewrite lookup_insert_ne by discriminate); apply lookup_insert_eq.
Qed.

Lemma leading_fields_recorded_witness :
  exists md s' t',
    extract_target (Sample.site [Sample.moore; Sample.acheson] Sample.details Sample.never)
                   Sample.acheson md_init [] = (Ok md, s', t') /\
    md !! "title" = Some (VStr "Acheson Hotels, LLC v. Laufer").
Proof.
  destruct (leading_fields_recorded
              (Sample.site [Sample.moore; Sample.acheson] Sample.details Sample.never)
              Sample.acheson " Acheson Hotels, LLC v. Laufer " "A case about standing."
              Sample.details [] eq_refl eq_refl eq_refl)
    as (md & s' & t' & Hrun & Htitle & _).
  exists md, s', t'. split; [exact Hrun|].
  apply Htitle. apply (bool_decide_unpack _). vm_compute. exact I.
Defined.

(** ** The timeline section *)

Lemma timeline_loop_readable items : forall s t,
  Forall (fun item => is_Some (ti_header item)) items ->
  exists s' t',
    for_ items timeline_date s t = (Ok tt, s', t') /\
    forall k, k ∉ omap item_key items -> metadata s' !! k = metadata s !! k.
Proof.
  induction items as [|item items IH]; intros s t Hall.
  - do 2 eexists. split; reflexivity.
  - inversion Hall as [|? ? [h Hh] Hrest]; subst.
    simpl for_. unfold bind. rewrite timeline_date_run, Hh. cbn beta iota zeta.
    match goal with
    | |- context [for_ items timeline_date ?s0 ?t0] =>
        destruct (IH s0 t0 Hrest) as (s' & t' & Hrun & Hframe)
    end.
    rewrite Hrun.
    do 2 eexists. split; [reflexivity|].
    intros k Hk. unfold item_key in Hk at 1. simpl omap in Hk. rewrite Hh in Hk.
    simpl in Hk. rewrite not_elem_of_cons in Hk. destruct Hk as [Hne Hk].
    rewrite (Hframe k Hk). simpl. apply lookup_insert_ne. congruence.
Qed.

Lemma timeline_last_writer pre item post k s t :
  Forall (fun item => is_Some (ti_header item)) (pre ++ item :: post) ->
  item_key item = Some k ->
  k ∉ omap item_key post ->
  exists s' t',
    for_ (pre ++ item :: post) timeline_date s t = (Ok tt, s', t') /\
    metadata s' !! k = Some (date_value item).
Proof.
  intros Hall Hkey Hpost.
  apply Forall_app in Hall. destruct Hall as [Hpre Hrest].
  inversion Hrest as [|? ? [h Hh] Hpost']; subst.
  rewrite for_app.
  destruct (timeline_loop_readable pre s t Hpre) as (s1 & t1 & H1 & _). rewrite H1.
  simpl for_. unfold bind. rewrite timeline_date_run, Hh. cbn beta iota zeta.
  match goal with
  | |- context [for_ post timeline_date ?s0 ?t0] =>
      destruct (timeline_loop_readable post s0 t0 Hpost') as (s' & t' & Hrun & Hframe)
  end.
  rewrite Hrun. do 2 eexists. split; [reflexivity|].
  rewrite (Hframe k Hpost). simpl.
  unfold item_key in Hkey. rewrite Hh in Hkey. injection Hkey as <-.
  unfold date_value. apply lookup_insert_eq.
Qed.

(** X7.  When the timeline section is found the citation is always
    recorded, as the stripped text or as [None] when it cannot be read,
    unless a timeline header spells citation; when the section is not
    found the key is left out. *)
Theorem citation_recorded :
  forall w c title description dp t,
    ci_title c = Some title ->
    ci_description c = Some description ->
    detail w (ci_href c) = Some dp ->
    exists md s' t',
      extract_target w c md_init t = (Ok md, s', t') /\
      (forall tl, dp_timeline dp = Some tl ->
                  "citation" ∉ omap item_key (tl_items tl) ->
                  md !! "citation" = Some (citation_value tl)) /\
      (dp_timeline dp = None -> md !! "citation" = None).
Proof.
  intros w c title description dp t Ht Hd Hp.
  destruct (extract_target_decompose w c title description dp t Ht Hd Hp) as [t1 Hdec].
  destruct (extract_target_run w c title description dp t Ht Hd Hp)
    as (md & s' & t' & Hrun & Hframe).
  exists md, s', t'. split; [exact Hrun|]. split.
  - intros tl Htl Hk. rewrite Hrun in Hdec.
    match type of Hdec with
    | context [get_timeline dp ?s ?t] =>
        destruct (get_timeline_some dp tl s t Htl) as [t2 Hsome]; rewrite Hsome in Hdec;
        destruct (timeline_loop_frame (tl_items tl)
                    {| metadata := <["citation" := citation_value tl]> (metadata s);
                       header := header s |} t2)
          as (r & s2 & t3 & Hloop & Hfr)
    end.
    rewrite Hloop in Hdec. injection Hdec as -> _ _.
    rewrite (Hfr "citation"); [apply lookup_insert_eq | discriminate | exact Hk].
  - intros Htl. rewrite (Hframe "citation").
    + rewrite details_update_other
        by (apply (bool_decide_unpack _); vm_compute; exact I).
      reflexivity.
    + unfold timeline_keys. rewrite Htl. apply not_elem_of_nil.
Qed.

Lemma citation_recorded_witness :
  exists md s' t',
    extract_target (Sample.site [Sample.moore; Sample.acheson] Sample.details Sample.never)
                   Sample.acheson md_init [] = (Ok md, s', t') /\
    md !! "citation" = Some (VStr "601 US _ (2023)").
Proof.
  destruct (citation_recorded
              (Sample.site [Sample.moore; Sample.acheson] Sample.details Sample.never)
              Sample.acheson " Acheson Hotels, LLC v. Laufer " "A case about standing."
              Sample.details [] eq_refl eq_refl eq_refl)
    as (md & s' & t' & Hrun & Hcit & _).
  exists md, s', t'. split; [exact Hrun|].
  apply (Hcit {| tl_citation := Some "601 US _ (2023)";
                 tl_items := [Sample.granted; Sample.argued_undated] |} eq_refl).
  apply (bool_decide_unpack _). vm_compute. exact I.
Defined.

(** X8.  When every item of the timeline has a readable header, the pass
    never reaches the unbound local and each header key ends with the
    value of the last item spelling it: its stripped date, or [None] when
    that date cannot be read. *)
Theorem timeline_dates_recorded :
  forall w c title description dp tl pre item post k t,
    ci_title c = Some title ->
    ci_description c = Some description ->
    detail w (ci_href c) = Some dp ->
    dp_timeline dp = Some tl ->
    tl_items tl = pre ++ item :: post ->
    Forall (fun item => is_Some (ti_header item)) (tl_items tl) ->
    item_key item = Some k ->
    k ∉ omap item_key post ->
    exists md s' t',
      extract_target w c md_init t = (Ok md, s', t') /\
      md !! k = Some (date_value item).
Proof.
  intros w c title description dp tl pre item post k t Ht Hd Hp Htl Hitems Hall Hkey Hpost.
  destruct (extract_target_decompose w c title description dp t Ht Hd Hp) as [t1 Hdec].
  match type of Hdec with
  | context [get_timeline dp ?s ?t] =>
      destruct (get_timeline_some dp tl s t Htl) as [t2 Hsome]; rewrite Hsome in Hdec
  end.
  rewrite Hitems in Hdec, Hall.
  match type of Hdec with
  | context [for_ _ timeline_date ?s ?t] =>
      destruct (timeline_last_writer pre item post k s t Hall Hkey Hpost)
        as (s2 & t3 & Hloop & Hlook)
  end.
  rewrite Hloop in Hdec. do 3 eexists. split; [exact Hdec | exact Hlook].
Qed.

Lemma timeline_dates_recorded_witness :
  exists md s' t',
    extract_target (Sample.site [Sample.moore; Sample.acheson] Sample.details Sample.never)
                   Sample.acheson md_init [] = (Ok md, s', t') /\
    md !! "granted" = Some (VStr "Mar 27, 2023").
Proof.
  apply (timeline_dates_recorded
           (Sample.site [Sample.moore; Sample.acheson] Sample.details Sample.never)
           Sample.acheson " Acheson Hotels, LLC v. Laufer " "A case about standing."
           Sample.details
           {| tl_citation := Some "601 US _ (2023)";
              tl_items := [Sample.granted; Sample.argued_undated] |}
           [] Sample.granted [Sample.argued_undated] "granted" []).
  - reflexivity.
  - reflexivity.
  - reflexivity.
  - reflexivity.
  - reflexivity.
  - repeat constructor; eexists; reflexivity.
  - reflexivity.
  - apply (bool_decide_unpack _). vm_compute. exact I.
Defined.

(** ** The advocates *)

(** X9.  The advocates are all or nothing: when the name and the role of
    every advocate element can be read the key holds one dict per element,
    in page order; as soon as one element cannot be read the key is left
    as it was, the readable advocates included. *)
Theorem advocates_all_or_nothing :
  forall dp items s t,
    dp_advocates dp = Some items ->
    exists s' t',
      get_advocates dp s t = (Ok tt, s', t') /\
      header s' = header s /\
      (Forall (fun a => advocate_readable a = true) items ->
       exists l, Forall2 advocate_of items l /\
                 metadata s' = <["advocates" := VList l]> (metadata s)) /\
      (Exists (fun a => advocate_readable a = false) items ->
       metadata s' = metadata s).
Proof.
  intros dp items s t Hdp.
  destruct (get_advocates_run dp s t) as [t' Hrun].
  do 2 eexists. split; [exact Hrun|]. split; [reflexivity|].
  unfold group_value. simpl. rewrite Hdp. simpl.
  destruct (read_advocates items) as [l|] eqn:Hl; simpl.
  - split.
    + intros _. exists l. split; [|reflexivity].
      unfold read_advocates in Hl. apply mapM_Some in Hl.
      eapply Forall2_impl; [exact Hl|]. intros a adv Ha. unfold advocate_of.
      cbv beta in Ha.
      destruct (adv_name a) as [n|]; [|discriminate].
      destruct (adv_role a) as [r|]; [|discriminate].
      exists n, r. repeat split. congruence.
    + intros Hex. exfalso. unfold read_advocates in Hl. apply mapM_Some in Hl.
      apply Exists_exists in Hex. destruct Hex as (a & Hin & Ha).
      apply list_elem_of_lookup in Hin. destruct Hin as [i Hi].
      destruct (Forall2_lookup_l _ _ _ _ _ Hl Hi) as (adv & _ & Hadv).
      unfold advocate_readable in Ha.
      destruct (adv_name a); [destruct (adv_role a)|]; discriminate.
  - split; [|reflexivity].
    intros Hall. exfalso. unfold read_advocates in Hl.
    apply mapM_None in Hl. apply Exists_exists in Hl. destruct Hl as (a & Hin & Ha).
    rewrite Forall_forall in Hall. specialize (Hall a Hin).
    unfold advocate_readable in Hall.
    destruct (adv_name a); [destruct (adv_role a)|]; discriminate.
Qed.

Lemma advocates_all_or_nothing_witness :
  exists s' t',
    get_advocates Sample.details md_init [] = (Ok tt, s', t') /\
    exists l, Forall2 advocate_of
                [ {| adv_name := Some "Adam G. Unikowsky";
                     adv_role := Some "for the Petitioner" |} ] l /\
              metadata s' = <["advocates" := VList l]> (metadata md_init).
Proof.
  destruct (advocates_all_or_nothing Sample.details _ md_init [] eq_refl)
    as (s' & t' & Hrun & _ & Hall & _).
  exists s', t'. split; [exact Hrun|]. apply Hall. repeat constructor.
Defined.

(** ** Waiting for the blocks *)

Lemma poll_blocks_step {S} pp attempt rest blocks (s : S) t :
  poll_blocks pp (attempt :: rest) blocks s t =
    match pp_polls pp attempt with
    | [] => poll_blocks pp rest [] s (t ++ [Find block_selector])
    | found => (Ok found, s, t ++ [Find block_selector])
    end.
Proof.
  simpl. unfold find_elements, bind, emit, ret.
  destruct (pp_polls pp attempt); reflexivity.
Qed.

(** X10.  The player page is polled at most three times and the loop
    leaves at the first poll that finds blocks: when the polls before
    attempt [k] are empty and attempt [k] is not, its blocks are taken after
    exactly [k + 1] lookups. *)
Theorem poll_first_nonempty :
  forall (pp : player_page) (k : nat) (s : tr_locals) (t : list event),
    k < 3 ->
    (forall j, j < k -> pp_polls pp j = []) ->
    pp_polls pp k <> [] ->
    poll_blocks pp [0; 1; 2] [] s t =
      (Ok (pp_polls pp k), s, t ++ replicate (S k) (Find block_selector)).
Proof.
  intros pp k s t Hk Hbefore Hfound.
  destruct k as [|[|[|k]]]; [| | |lia].
  - rewrite poll_blocks_step. destruct (pp_polls pp 0); [congruence|reflexivity].
  - rewrite poll_blocks_step, (Hbefore 0) by lia.
    rewrite poll_blocks_step. destruct (pp_polls pp 1); [congruence|].
    rewrite <- app_assoc. reflexivity.
  - rewrite poll_blocks_step, (Hbefore 0) by lia.
    rewrite poll_blocks_step, (Hbefore 1) by lia.
    rewrite poll_blocks_step. destruct (pp_polls pp 2); [congruence|].
    rewrite <- !app_assoc. reflexivity.
Qed.

Lemma poll_first_nonempty_witness :
  poll_blocks {| pp_polls := Sample.late Sample.every_third |} [0; 1; 2] [] tr_init [] =
    (Ok Sample.every_third, tr_init, [] ++ replicate 3 (Find block_selector)).
Proof.
  apply (poll_first_nonempty {| pp_polls := Sample.late Sample.every_third |} 2 tr_init []).
  - lia.
  - intros [|[|j]] Hj; [reflexivity | reflexivity | lia].
  - discriminate.
Defined.

(** ** Pages that do not load *)

(** X11.  When the listing page does not load, the run makes that one
    request, releases the session and returns normally; when the player
    page does not load, it stops right after that request.  In both cases
    no block is processed and no file is written. *)
Theorem page_load_failures :
  (forall w case_year case_name full_transcript,
      session w = true ->
      listing w (listing_url case_year) = None ->
      get_transcript_with_selenium w case_year case_name full_transcript =
        (Ok tt, [Open; Get (VStr (listing_url case_year)); Quit])) /\
  (forall w case_year case_name full_transcript md s1 t1 u,
      session w = true ->
      get_case_metadata w case_year case_name md_init [Open] = (Ok md, s1, t1) ->
      dict_get md "oral_argument_url" = VStr u ->
      PyStr.truthy u = true ->
      player w u = None ->
      get_transcript_with_selenium w case_year case_name full_transcript =
        (Ok tt, t1 ++ [Get (VStr u); Quit]) /\
      no_output (t1 ++ [Get (VStr u); Quit])).
Proof.
  split.
  - intros w case_year case_name full_transcript Hs Hl.
    unfold get_transcript_with_selenium, finally_, try_, scrape, call, get_case_metadata,
      driver_get.
    rewrite Hs, Hl. reflexivity.
  - intros w case_year case_name full_transcript md s1 t1 u Hs Hmd Hu Ht Hp.
    assert (Hscrape : scrape w case_year case_name full_transcript tr_init [Open] =
                      (Raised (WebDriverException "get"), tr_init, t1 ++ [Get (VStr u)])).
    { unfold scrape, call. unfold bind at 1. rewrite Hmd, Hu.
      unfold value_truthy. rewrite Ht. cbn [negb]. cbv beta iota.
      unfold driver_get, player_of. rewrite Hp. reflexivity. }
    split.
    + rewrite (get_transcript_of_scrape _ _ _ _ _ _ _ Hs Hscrape), <- app_assoc.
      reflexivity.
    + destruct (metadata_log_from_open _ _ _ _ _ _ Hmd) as (d & -> & Hq).
      unfold no_output. constructor; [reflexivity|].
      apply Forall_app. split; [|repeat constructor].
      eapply Forall_impl; [exact Hq|]. intros [] He; simpl in *; congruence.
Qed.

Lemma page_load_failures_witness :
  get_transcript_with_selenium
    (Sample.site [Sample.moore; Sample.acheson] Sample.details Sample.never)
    "1999" "Acheson" true =
  (Ok tt, [Open; Get (VStr (listing_url "1999")); Quit]).
Proof.
  apply (proj1 page_load_failures
           (Sample.site [Sample.moore; Sample.acheson] Sample.details Sample.never)
           "1999" "Acheson" true).
  - reflexivity.
  - reflexivity.
Defined.

(** ** The output file *)

Lemma save_result_run w md full_transcript s t :
  save_result w md full_transcript s t =
    match md !! "title" with
    | Some (VStr title) =>
        if writable w (output_filename title full_transcript) then
          (Ok tt, s,
           t ++ [Dump (output_filename title full_transcript)
                   {| doc_case_name := VStr title;
                      doc_argument_date := dict_get md "argued";
                      doc_metadata := md;
                      doc_transcript := transcript s;
                      doc_transcript_mode :=
                        if negb full_transcript then "TEST (first 3 blocks)" else "FULL" |}])
        else (Raised (OSError (output_filename title full_transcript)), s, t)
    | Some _ => (Raised (AttributeError "replace"), s, t)
    | None => (Raised (KeyError "title"), s, t)
    end.
Proof.
  unfold save_result, getitem, value_replace, output_filename, safe_case_name.
  cbv [bind ret raise emit gets].
  destruct (md !! "title") as [[|title|l]|]; try reflexivity.
  match goal with |- context [writable w ?f] => destruct (writable w f) end; reflexivity.
Qed.

Lemma replace_char_absent c new x :
  occurs c x = false -> PyStr.replace (String c EmptyString) new x = x.
Proof.
  unfold PyStr.replace. induction x as [|y r IH]; [reflexivity|].
  cbn [PyStr.replace_go PyStr.startswith String.length Nat.sub occurs].
  intros H. apply orb_false_iff in H. destruct H as [Hy Hr].
  rewrite Hy, (IH Hr). reflexivity.
Qed.

(** X12.  The name under which the output file is opened is the title
    with every space turned into an underscore and every comma and period
    dropped, followed by [_transcript], the mode suffix and [.json]: the
    part that comes from the title holds no space, no comma and no period,
    and a title without these characters enters the name unchanged.  When
    the file can be opened under that name it is the one written; when it
    cannot, the step raises and nothing is written. *)
Theorem filename_sanitized :
  forall (w : world) (md : gmap string value) (full_transcript : bool)
         (s : tr_locals) (t : list event) (title : string),
    md !! "title" = Some (VStr title) ->
    let filename :=
      String.app (safe_case_name title)
        (String.app "_transcript"
           (String.app (if full_transcript then "_full" else "_test") ".json")) in
    (writable w filename = true ->
     exists doc, save_result w md full_transcript s t = (Ok tt, s, t ++ [Dump filename doc])) /\
    (writable w filename = false ->
     save_result w md full_transcript s t = (Raised (OSError filename), s, t)) /\
    occurs " " (safe_case_name title) = false /\
    occurs "," (safe_case_name title) = false /\
    occurs "." (safe_case_name title) = false /\
    (occurs " " title = false -> occurs "," title = false -> occurs "." title = false ->
     safe_case_name title = title).
Proof.
  intros w md full_transcript s t title Ht filename.
  assert (Hname : output_filename title full_transcript = filename).
  { unfold output_filename, filename. destruct full_transcript; reflexivity. }
  split; [|split; [|split; [|split; [|split]]]].
  - intros Hw. rewrite save_result_run, Ht, Hname, Hw. eexists. reflexivity.
  - intros Hw. rewrite save_result_run, Ht, Hname, Hw. reflexivity.
  - unfold safe_case_name. rewrite replace_char_same.
    rewrite !replace_char_other by reflexivity. apply replace_char_gone. reflexivity.
  - unfold safe_case_name. rewrite replace_char_same.
    rewrite replace_char_other by reflexivity. apply replace_char_gone. reflexivity.
  - unfold safe_case_name. rewrite replace_char_same. apply replace_char_gone. reflexivity.
  - intros H1 H2 H3. unfold safe_case_name. rewrite replace_char_same.
    rewrite (replace_char_absent " "%char "_" title H1),
            (replace_char_absent ","%char EmptyString title H2).
    apply replace_char_absent. exact H3.
Qed.

Lemma filename_sanitized_witness :
  (exists doc,
     save_result (Sample.site [Sample.acheson] Sample.details Sample.never)
                 (<["title" := VStr "Acheson Hotels, LLC v. Laufer"]> ∅) true tr_init [] =
       (Ok tt, tr_init,
        [] ++ [Dump "Acheson_Hotels_LLC_v_Laufer_transcript_full.json" doc])) /\
  save_result (Pages.read_only (Sample.site [Sample.acheson] Sample.details Sample.never))
              (<["title" := VStr "Acheson Hotels, LLC v. Laufer"]> ∅) true tr_init [] =
    (Raised (OSError "Acheson_Hotels_LLC_v_Laufer_transcript_full.json"), tr_init, []) /\
  occurs " " (safe_case_name "Acheson Hotels, LLC v. Laufer") = false.
Proof.
  assert (Ht : (<["title" := VStr "Acheson Hotels, LLC v. Laufer"]> ∅ : gmap string value)
                 !! "title" = Some (VStr "Acheson Hotels, LLC v. Laufer"))
    by reflexivity.
  split; [|split].
  - apply (proj1 (filename_sanitized
                    (Sample.site [Sample.acheson] Sample.details Sample.never)
                    _ true tr_init [] "Acheson Hotels, LLC v. Laufer" Ht)).
    reflexivity.
  - apply (proj1 (proj2 (filename_sanitized
                    (Pages.read_only
                       (Sample.site [Sample.acheson] Sample.details Sample.never))
                    _ true tr_init [] "Acheson Hotels, LLC v. Laufer" Ht))).
    reflexivity.
  - apply (proj1 (proj2 (proj2 (filename_sanitized
                    (Sample.site [Sample.acheson] Sample.details Sample.never)
                    _ true tr_init [] "Acheson Hotels, LLC v. Laufer" Ht)))).
Defined.

(** X13.  The save step either writes exactly one document, under the
    name built from the title, holding the title, the value under [argued]
    ([None] when the key is missing), the whole mapping and the transcript
    assembled so far, or raises without writing anything and without
    touching the locals; it raises exactly when the title is missing from
    the mapping, is not a string, or the file cannot be opened under that
    name. *)
Theorem save_result_document :
  forall w md full_transcript s t,
    match save_result w md full_transcript s t with
    | (Ok _, s', t') =>
        s' = s /\
        exists title,
          md !! "title" = Some (VStr title) /\
          writable w (output_filename title full_transcript) = true /\
          t' = t ++ [Dump (output_filename title full_transcript)
                       {| doc_case_name := VStr title;
                          doc_argument_date := default VNone (md !! "argued");
                          doc_metadata := md;
                          doc_transcript := transcript s;
                          doc_transcript_mode :=
                            if full_transcript then "FULL" else "TEST (first 3 blocks)" |}]
    | (Raised e, s', t') =>
        s' = s /\ t' = t /\
        (md !! "title" = None \/ md !! "title" = Some VNone \/
         (exists l, md !! "title" = Some (VList l)) \/
         exists title, md !! "title" = Some (VStr title) /\
                       writable w (output_filename title full_transcript) = false /\
                       e = OSError (output_filename title full_transcript))
    end.
Proof.
  intros w md full_transcript s t. rewrite save_result_run.
  destruct (md !! "title") as [[|title|l]|].
  - split; [reflexivity|]. split; [reflexivity|]. right. left. reflexivity.
  - destruct (writable w (output_filename title full_transcript)) eqn:Hw.
    + split; [reflexivity|]. exists title.
      split; [reflexivity|]. split; [exact Hw|].
      destruct full_transcript; reflexivity.
    + split; [reflexivity|]. split; [reflexivity|].
      right. right. right. exists title. auto.
  - split; [reflexivity|]. split; [reflexivity|]. right. right. left. eauto.
  - split; [reflexivity|]. split; [reflexivity|]. left. reflexivity.
Qed.

Lemma writes_last_of_emits {S} (m : M S unit) :
  emits_only is_browsing m -> writes_last m.
Proof.
  intros Hm s t. destruct (Hm s t) as (d & Hd & Hb).
  destruct (m s t) as [[r s'] t']. simpl in Hd. left. eauto.
Qed.

Lemma writes_last_bind {S A} (m : M S A) (k : A -> M S unit) :
  emits_only is_browsing m -> (forall a, writes_last (k a)) -> writes_last (bind m k).
Proof.
  intros Hm Hk s t. unfold bind.
  destruct (Hm s t) as (d & Hd & Hb).
  destruct (m s t) as [[[a|e] s1] t1]; simpl in Hd; subst t1.
  - specialize (Hk a s1 (t ++ d)).
    destruct (k a s1 (t ++ d)) as [[r s2] t2].
    destruct Hk as [(d2 & -> & Hb2)|(-> & d2 & f & doc & -> & Hb2)].
    + left. exists (d ++ d2). rewrite app_assoc. split; [reflexivity|].
      apply Forall_app. auto.
    + right. split; [reflexivity|]. exists (d ++ d2), f, doc.
      rewrite <- !app_assoc. split; [reflexivity|]. apply Forall_app. auto.
  - left. eauto.
Qed.

Lemma save_result_writes_last w md full_transcript :
  writes_last (save_result w md full_transcript).
Proof.
  intros s t. rewrite save_result_run.
  destruct (md !! "title") as [[|title|l]|].
  - left. exists []. rewrite app_nil_r. auto.
  - destruct (writable w (output_filename title full_transcript)).
    + right. split; [reflexivity|]. exists []. do 2 eexists.
      split; [reflexivity|constructor].
    + left. exists []. rewrite app_nil_r. auto.
  - left. exists []. rewrite app_nil_r. auto.
  - left. exists []. rewrite app_nil_r. auto.
Qed.

Lemma query_is_browsing e : is_query e = true -> is_browsing e = true.
Proof. destruct e; simpl; intros H; try discriminate H; reflexivity. Qed.

Lemma poll_blocks_browsing {S} pp attempts blocks :
  emits_only is_browsing (poll_blocks pp attempts blocks : M S (list block)).
Proof.
  revert blocks. induction attempts as [|a attempts IH]; intros blocks; simpl.
  - apply emits_only_ret.
  - unfold find_elements. log_solver. apply IH.
Qed.

Lemma process_block_browsing ib : emits_only is_browsing (process_block ib).
Proof.
  intros s t. destruct ib as [i b].
  destruct (process_block_run i b s t) as (d & Hrun & _ & Hd).
  exists d. rewrite Hrun. split; [reflexivity|].
  eapply Forall_impl; [exact Hd|]. intros e [He _]. exact He.
Qed.

Lemma scrape_writes_last w case_year case_name full_transcript :
  writes_last (scrape w case_year case_name full_transcript).
Proof.
  unfold scrape. apply writes_last_bind.
  { apply emits_only_call. apply (emits_only_weaken is_query).
    - exact query_is_browsing.
    - apply get_case_metadata_log. }
  intros md. cbv zeta.
  destruct (negb (value_truthy (dict_get md "oral_argument_url")));
    [apply writes_last_of_emits; apply emits_only_ret|].
  apply writes_last_bind; [unfold driver_get; log_solver|]. intros pp.
  apply writes_last_bind; [apply poll_blocks_browsing|]. intros blocks.
  destruct blocks as [|b blocks]; [apply writes_last_of_emits; apply emits_only_raise|].
  apply writes_last_bind; [apply emits_only_modify|]. intros _.
  apply writes_last_bind; [apply emits_only_for; exact process_block_browsing|]. intros _.
  apply save_result_writes_last.
Qed.

(** X14.  A run writes at most one file, as the last thing it does before
    releasing the session, and only when everything before it went through:
    when the body of the [try] raises, at whatever point, no file has been
    written. *)
Theorem output_only_on_success :
  forall w case_year case_name full_transcript,
    session w = true ->
    exists d,
      get_transcript_with_selenium w case_year case_name full_transcript =
        (Ok tt, Open :: d ++ [Quit]) /\
      (no_output d \/
       fst (fst (scrape w case_year case_name full_transcript tr_init [Open])) = Ok tt /\
       exists d' filename doc, d = d' ++ [Dump filename doc] /\ no_output d').
Proof.
  intros w case_year case_name full_transcript Hs.
  pose proof (scrape_writes_last w case_year case_name full_transcript tr_init [Open]) as Hw.
  destruct (scrape w case_year case_name full_transcript tr_init [Open])
    as [[r s'] t'] eqn:Hrun.
  assert (Hno : forall d, Forall (fun e => is_browsing e = true) d -> no_output d).
  { intros d Hd. eapply Forall_impl; [exact Hd|]. intros e He.
    unfold is_browsing in He. apply andb_true_iff in He. destruct He as [He _].
    destruct (is_dump e); [discriminate | reflexivity]. }
  destruct Hw as [(d & -> & Hb)|(-> & d & f & doc & -> & Hb)].
  - exists d. split; [apply (get_transcript_of_scrape _ _ _ _ _ _ _ Hs Hrun)|].
    left. apply Hno. exact Hb.
  - exists (d ++ [Dump f doc]). split.
    + rewrite (get_transcript_of_scrape _ _ _ _ _ _ _ Hs Hrun). reflexivity.
    + right. split; [reflexivity|]. exists d, f, doc. split; [reflexivity|].
      apply Hno. exact Hb.
Qed.

Lemma output_only_on_success_witness :
  exists d,
    get_transcript_with_selenium
      (Sample.site [Sample.moore; Sample.acheson] Sample.details
                   (Sample.late Sample.every_third))
      "2023" "Acheson" true = (Ok tt, Open :: d ++ [Quit]) /\
    (no_output d \/
     fst (fst (scrape (Sample.site [Sample.moore; Sample.acheson] Sample.details
                                   (Sample.late Sample.every_third))
                      "2023" "Acheson" true tr_init [Open])) = Ok tt /\
     exists d' filename doc, d = d' ++ [Dump filename doc] /\ no_output d').
Proof.
  apply (output_only_on_success
           (Sample.site [Sample.moore; Sample.acheson] Sample.details
                        (Sample.late Sample.every_third))
           "2023" "Acheson" true).
  reflexivity.
Defined.

(** ** The transcript *)

(** X15.  The sample transcript is a prefix of the full one: the entries
    of the first three blocks do not depend on the mode. *)
Theorem sample_is_prefix :
  forall blocks, transcript_of false blocks `prefix_of` transcript_of true blocks.
Proof.
  intros blocks. unfold transcript_of, limit_blocks. rewrite !run_blocks_steps.
  rewrite <- (take_drop 3 blocks) at 2. rewrite steps_app.
  destruct (steps_transcript (drop 3 blocks) (steps (take 3 blocks) tr_init))
    as (es & _ & Hes & _).
  exists es. exact Hes.
Qed.

Lemma step_speaker_stripped b s :
  (forall c, current_speaker s = Some c -> PyStr.strip c = c) ->
  forall c, current_speaker (step b s) = Some c -> PyStr.strip c = c.
Proof.
  destruct b as [click txt st sp lbl page]. destruct s as [tr cs].
  brun. intros H c.
  repeat case_step; intros Hc;
    first [ apply H; exact Hc
          | injection Hc as <-; apply strip_idem
          | discriminate Hc ].
Qed.

Lemma steps_speaker_stripped blocks : forall s,
  (forall c, current_speaker s = Some c -> PyStr.strip c = c) ->
  forall c, current_speaker (steps blocks s) = Some c -> PyStr.strip c = c.
Proof.
  induction blocks as [|b blocks IH]; intros s Hs; [exact Hs|].
  change (steps (b :: blocks) s) with (steps blocks (step b s)).
  apply IH. apply step_speaker_stripped. exact Hs.
Qed.

(** An entry with a text and a speaker that are not empty and carry no
    surrounding whitespace. *)
Lemma steps_entries blocks : forall s,
  (forall c, current_speaker s = Some c -> PyStr.strip c = c) ->
  exists es,
    transcript (steps blocks s) = transcript s ++ es /\
    Forall (fun e => text e <> EmptyString /\ speaker e <> EmptyString /\
                     PyStr.strip (text e) = text e /\
                     PyStr.strip (speaker e) = speaker e) es.
Proof.
  induction blocks as [|b blocks IH]; intros s Hs.
  - exists []. simpl. rewrite app_nil_r. split; [reflexivity|constructor].
  - change (steps (b :: blocks) s) with (steps blocks (step b s)).
    destruct (IH (step b s) (step_speaker_stripped b s Hs)) as (es & Hes & Hall).
    rewrite Hes, step_transcript.
    destruct (emitted_by_cases b s) as [->|(e & -> & (raw & _ & Htext & _) & Hcs & Hsp & Htx)].
    + exists es. rewrite app_nil_r. split; [reflexivity | exact Hall].
    + exists (e :: es). rewrite <- app_assoc. split; [reflexivity|].
      constructor; [|exact Hall].
      split; [intros H0; rewrite H0 in Htx; discriminate|].
      split; [intros H0; rewrite H0 in Hsp; discriminate|].
      split; [rewrite Htext; apply strip_idem|].
      apply (step_speaker_stripped b s Hs). exact Hcs.
Qed.

(** X16.  In either mode every entry of the transcript has a text and a
    speaker that are not empty and carry no leading or trailing
    whitespace. *)
Theorem entries_well_formed :
  forall full_transcript blocks,
    Forall (fun e => text e <> EmptyString /\ speaker e <> EmptyString /\
                     PyStr.strip (text e) = text e /\
                     PyStr.strip (speaker e) = speaker e)
           (transcript_of full_transcript blocks).
Proof.
  intros full_transcript blocks. unfold transcript_of. rewrite run_blocks_steps.
  destruct (steps_entries (limit_blocks full_transcript blocks) tr_init) as (es & Hes & Hall).
  - intros c Hc. discriminate Hc.
  - rewrite Hes. exact Hall.
Qed.

Lemma block_reads_label b words start stop label :
  block_reads b = Some (words, start, stop, label) -> b_label b = Some label.
Proof.
  unfold block_reads.
  destruct (b_click b), (b_text b), (b_start b), (b_stop b), (b_label b);
    simpl; intros H; try discriminate H.
  injection H as _ _ _ ->. reflexivity.
Qed.

Lemma resolved_fallback b words start stop label carried :
  block_reads b = Some (words, start, stop, label) ->
  declares_label b = false ->
  speaker_truthy carried = false ->
  resolved_speaker b carried =
    match b_page_labels b with
    | Some (Some first :: _) => Some (PyStr.strip first)
    | _ => None
    end.
Proof.
  intros Hr Hd Hc. apply block_reads_label in Hr.
  unfold resolved_speaker, declares_label in *. rewrite Hr in *.
  destruct label as [l|]; [rewrite Hd|]; rewrite Hc; reflexivity.
Qed.

(** X17.  A first block without a label of its own is attributed to the
    first label found anywhere on the page; when the page shows no label
    at all it yields no entry, whatever its text. *)
Theorem first_speaker_fallback :
  forall b words start stop label,
    block_reads b = Some (words, start, stop, label) ->
    declares_label b = false ->
    (forall first rest,
        b_page_labels b = Some (Some first :: rest) ->
        PyStr.truthy words = true ->
        PyStr.truthy (PyStr.strip first) = true ->
        step b tr_init =
          {| transcript := [{| speaker := PyStr.strip first; text := words;
                               start_time := start; stop_time := stop |}];
             current_speaker := Some (PyStr.strip first) |}) /\
    (b_page_labels b = Some [] -> step b tr_init = tr_init).
Proof.
  intros b words start stop label Hr Hd.
  pose proof (step_fallback b tr_init words start stop label Hr Hd eq_refl) as Hcs.
  pose proof (step_transcript b tr_init) as Htr.
  unfold emitted_by in Htr.
  rewrite Hr, (resolved_fallback b _ _ _ _ (current_speaker tr_init) Hr Hd eq_refl) in Htr.
  split.
  - intros first rest Hp Hw Hf. rewrite Hp in Hcs, Htr.
    rewrite Hw, Hf in Htr. simpl in Htr.
    destruct (step b tr_init) as [tr cs]. simpl in *. subst. reflexivity.
  - intros Hp. rewrite Hp in Hcs, Htr. simpl in Htr.
    destruct (step b tr_init) as [tr cs]. simpl in *. subst. reflexivity.
Qed.

Lemma first_speaker_fallback_witness :
  step (Sample.said None "Mr. Unikowsky.") tr_init =
    {| transcript := [{| speaker := PyStr.strip "John G. Roberts, Jr.";
                         text := "Mr. Unikowsky.";
                         start_time := Some "0.0"; stop_time := Some "4.2" |}];
       current_speaker := Some (PyStr.strip "John G. Roberts, Jr.") |} /\
  step (Pages.unlabelled "Mr. Unikowsky.") tr_init = tr_init.
Proof.
  split.
  - apply (proj1 (first_speaker_fallback (Sample.said None "Mr. Unikowsky.")
                    "Mr. Unikowsky." (Some "0.0") (Some "4.2") None eq_refl eq_refl)
                 "John G. Roberts, Jr." []); reflexivity.
  - apply (proj2 (first_speaker_fallback (Pages.unlabelled "Mr. Unikowsky.")
                    "Mr. Unikowsky." (Some "0.0") (Some "4.2") None eq_refl eq_refl)).
    reflexivity.
Defined.

Lemma strip_blank s : all_space s = true -> PyStr.strip s = EmptyString.
Proof.
  unfold PyStr.strip. induction s as [|c r IH]; [reflexivity|]. simpl.
  intros H. apply andb_true_iff in H. destruct H as [Hc Hr].
  rewrite Hc. apply IH. exact Hr.
Qed.

(** X18.  A label made of whitespace only counts as a label: the block
    yields no entry, whatever its text, and the speaker established so far
    is replaced by the empty string, so that the next block without a
    label goes to the page-wide fallback instead of carrying the earlier
    speaker over. *)
Theorem blank_label_drops_speaker :
  forall b words start stop l s,
    block_reads b = Some (words, start, stop, Some l) ->
    PyStr.truthy l = true ->
    all_space l = true ->
    step b s = {| transcript := transcript s; current_speaker := Some EmptyString |} /\
    speaker_truthy (current_speaker (step b s)) = false.
Proof.
  intros b words start stop l s Hr Hl Hb.
  pose proof (step_label b s words start stop l Hr Hl) as Hcs.
  rewrite (strip_blank l Hb) in Hcs.
  pose proof (step_transcript b s) as Htr.
  unfold emitted_by, resolved_speaker in Htr.
  rewrite Hr, (block_reads_label _ _ _ _ _ Hr), Hl, (strip_blank l Hb),
    andb_false_r, app_nil_r in Htr.
  split; [|rewrite Hcs; reflexivity].
  destruct (step b s) as [tr cs]. simpl in *. subst. reflexivity.
Qed.

Lemma blank_label_drops_speaker_witness :
  step (Sample.said (Some "  ") "May I ask")
       {| transcript := []; current_speaker := Some "Elena Kagan" |} =
    {| transcript := []; current_speaker := Some EmptyString |} /\
  speaker_truthy
    (current_speaker
       (step (Sample.said (Some "  ") "May I ask")
             {| transcript := []; current_speaker := Some "Elena Kagan" |})) = false.
Proof.
  apply (blank_label_drops_speaker (Sample.said (Some "  ") "May I ask")
           "May I ask" (Some "0.0") (Some "4.2") "  "
           {| transcript := []; current_speaker := Some "Elena Kagan" |});
    reflexivity.
Defined.
